(** * Properties Commander: frontmatter mutation, type inference,
      aggregation, batch summaries and folder traversal.

    A shallow embedding of [src/utils/property-utils.ts] and of the
    [handleSubmit] / [loadExistingProperties] methods of the modals. *)

From Stdlib Require Import ZArith Floats Ascii String DecimalString.
From stdpp Require Import gmap strings list fin_maps.

Set Warnings "-register-all".

Local Open Scope Z_scope.

(** ** Runtime values *)

(** A value as the plugin meets it in a metadata block ([unknown] in the
    source): what the YAML front matter parser produces, and
    [JPrototypeMember name], what [Object.prototype] holds under [name]
    (a built-in function, or under [__proto__] the prototype object its
    accessor returns), which a read of a key the block only inherits
    yields.  Numbers are IEEE doubles. *)
Inductive JsValue : Type :=
| JString (s : string)
| JNumber (x : float)
| JBoolean (b : bool)
| JNull
| JArray (items : list JsValue)
| JObject (fields : list (string * JsValue))
| JPrototypeMember (name : string).

(** [typeof v === 'string'] *)
Definition typeof_string (v : JsValue) : bool :=
  match v with JString _ => true | _ => false end.

(** [PropertyValueType] of [types.ts]. *)
Inductive PropertyValueType : Type :=
| text | number | checkbox | date | list_.

(** ** The date pattern [/^\d{4}-\d{2}-\d{2}$/] *)

(** One position of the pattern: the class [\d] or a literal character. *)
Inductive Atom : Type :=
| Digit
| Lit (c : ascii).

Definition is_digit (c : ascii) : bool :=
  let n := nat_of_ascii c in ((48 <=? n) && (n <=? 57))%nat.

Definition atom_matches (a : Atom) (c : ascii) : bool :=
  match a with
  | Digit => is_digit c
  | Lit d => if decide (c = d) then true else false
  end.

(** Match a sequence of atoms against the whole subject: the pattern is
    anchored by [^] and [$], and without the [m] flag [$] is the end of
    the input. *)
Fixpoint regex_test (p : list Atom) (s : string) : bool :=
  match p, s with
  | [], EmptyString => true
  | a :: p', String c s' => atom_matches a c && regex_test p' s'
  | _, _ => false
  end.

Definition repeat_atom (n : nat) (a : Atom) : list Atom := replicate n a.

Definition date_regex : list Atom :=
  repeat_atom 4 Digit ++ [Lit "-"%char] ++ repeat_atom 2 Digit
    ++ [Lit "-"%char] ++ repeat_atom 2 Digit.

(** [detectValueType] *)
Definition detectValueType (value : JsValue) : PropertyValueType :=
  match value with
  | JBoolean _ => checkbox
  | JNumber _ => number
  | JArray _ => list_
  | JString s => if regex_test date_regex s then date else text
  | _ => text
  end.

(** [isPropertyValue] *)
Definition isPropertyValue (value : JsValue) : bool :=
  match value with
  | JString _ => true
  | JNumber _ => true
  | JBoolean _ => true
  | JArray items => forallb typeof_string items
  | _ => false
  end.

(** ** Folder trees *)

Record TFile : Type := mkTFile { path : string; extension : string }.

Inductive TFolder : Type :=
| mkTFolder (folder_path : string) (children : list (TFile + TFolder)).

Definition children_of (folder : TFolder) : list (TFile + TFolder) :=
  match folder with mkTFolder _ cs => cs end.

#[global] Instance TFile_eq_dec : EqDecision TFile.
Proof. solve_decision. Defined.

Definition is_md (f : TFile) : bool :=
  if decide (extension f = "md") then true else false.

(** [getFilesFromFolder]: the loop over [folder.children] pushes onto the
    local array [files]; a pushed list is spread at the end of it. *)
Fixpoint getFilesFromFolder (folder : TFolder) (includeSubfolders : bool)
    (depthLevel : Z) (currentDepth : Z) {struct folder} : list TFile :=
  match folder with
  | mkTFolder _ cs =>
    (fix loop (cs : list (TFile + TFolder)) (files : list TFile)
       {struct cs} : list TFile :=
       match cs with
       | [] => files
       | inl child :: rest =>
           if is_md child then loop rest (files ++ [child])
           else loop rest files
       | inr child :: rest =>
           if includeSubfolders
              && ((depthLevel =? -1) || (currentDepth <? depthLevel))
           then loop rest
                  (files ++ getFilesFromFolder child includeSubfolders
                              depthLevel (currentDepth + 1))
           else loop rest files
       end) cs []
  end.

(** ** The document store *)

(** A metadata block is the object [processFrontMatter] hands to its
    callback: an ordinary object whose own keys are the entries of the
    document's front matter and whose prototype is [Object.prototype].
    The map holds the own keys; [Object.entries] enumerates them and
    [delete frontmatter[key]] is [delete] on them. *)
Abbreviation Frontmatter := (gmap string JsValue).

(** The property names of [Object.prototype], which every block inherits:
    those of the language standard and the legacy accessors of its
    annex B (the prototype is taken as the language defines it). *)
Definition Object_prototype_names : list string :=
  ["constructor"; "hasOwnProperty"; "isPrototypeOf"; "propertyIsEnumerable";
   "toLocaleString"; "toString"; "valueOf"; "__proto__";
   "__defineGetter__"; "__defineSetter__"; "__lookupGetter__";
   "__lookupSetter__"].

Definition inherited (key : string) : bool :=
  bool_decide (key ∈ Object_prototype_names).

(** [key in frontmatter]: true of the own keys and of the inherited
    names. *)
Definition has_key (key : string) (frontmatter : Frontmatter) : bool :=
  bool_decide (is_Some (frontmatter !! key)) || inherited key.

(** [frontmatter[key]] as a value: the own entry, else what the prototype
    holds under the name, else [undefined] ([None]).  It is [Some] exactly
    when [key in frontmatter]. *)
Definition get (key : string) (frontmatter : Frontmatter) : option JsValue :=
  match frontmatter !! key with
  | Some value => Some value
  | None => if inherited key then Some (JPrototypeMember key) else None
  end.

(** [frontmatter[key] = value], and [properties[key] = value] on the fresh
    object of [getPropertiesFromFile].  An own key is overwritten, and a
    new own key is created, also where it shadows an inherited name, whose
    properties are writable; only [__proto__] is an accessor: on an object
    without an own key [__proto__] the assignment runs its setter, which
    replaces the object's prototype or does nothing and leaves the own
    keys as they are.  The callbacks below make no [in] test after such an
    assignment, and a document is written from the own keys, as
    [Object.entries] reads them, so the replaced prototype is never
    observed. *)
Definition assign (key : string) (value : JsValue) (frontmatter : Frontmatter)
    : Frontmatter :=
  if bool_decide (key = "__proto__")
     && negb (bool_decide (is_Some (frontmatter !! key)))
  then frontmatter
  else <[key := value]> frontmatter.

(** The vault maps the path of every document that can be opened to its
    block (the empty block when the document has no front matter). *)
Abbreviation Vault := (gmap string Frontmatter).

(** Asynchronous methods thread the vault. *)
Definition Async (A : Type) : Type := Vault → Vault * A.

Definition ret {A} (a : A) : Async A := λ v, (v, a).

Definition bind {A B} (m : Async A) (k : A → Async B) : Async B :=
  λ v, let '(v', a) := m v in k a v'.

Notation "x <- m ;; k" := (bind m (λ x, k))
  (at level 100, m at next level, right associativity).

(** [for (const x of xs) { ... }] around awaited calls, with the loop's
    local variables as [s]. *)
Fixpoint for_of {A S} (xs : list A) (body : A → S → Async S) (s : S)
    : Async S :=
  match xs with
  | [] => ret s
  | x :: rest => s' <- body x s ;; for_of rest body s'
  end.

(** [app.fileManager.processFrontMatter(file, fn)]: the store opens the
    document, runs [fn] on its block and commits the block [fn] leaves;
    when the document cannot be opened the promise rejects before [fn]
    runs ([None]).  A commit that fails after [fn] has run is not
    modelled, nor is what the store writes for a value that front matter
    cannot express: the vault holds the own keys of the block as [fn]
    leaves them.  [fn] returns, next to the block, the final value of the
    variable it captures. *)
Definition processFrontMatter {A} (file : TFile)
    (fn : Frontmatter → Frontmatter * A) : Async (option A) :=
  λ v, match v !! path file with
       | Some frontmatter =>
           let '(frontmatter', a) := fn frontmatter in
           (<[path file := frontmatter']> v, Some a)
       | None => (v, None)
       end.

(** [try { await processFrontMatter(...) } catch { }] around a captured
    variable initialised to [init]. *)
Definition try_processFrontMatter {A} (file : TFile) (init : A)
    (fn : Frontmatter → Frontmatter * A) : Async A :=
  r <- processFrontMatter file fn ;; ret (default init r).

(** ** Mutation engine *)

Module PropertyDefinition.
Record t : Type := mk { key : string; value : JsValue; type : PropertyValueType }.
End PropertyDefinition.

Module UpdateResult.
Inductive t : Type := updated | added | none.
End UpdateResult.

(** [!prop.key] and [key.length > 0] on a string. *)
Definition nonempty (s : string) : bool := (0 <? String.length s)%nat.

(** Body of the loop in the callback of [addPropertiesToFile]. *)
Definition addProperties_step (acc : Frontmatter * nat)
    (prop : PropertyDefinition.t) : Frontmatter * nat :=
  let '(frontmatter, added) := acc in
  if negb (nonempty (PropertyDefinition.key prop))
  then (frontmatter, added)
  else if negb (has_key (PropertyDefinition.key prop) frontmatter)
  then (assign (PropertyDefinition.key prop) (PropertyDefinition.value prop)
          frontmatter, S added)
  else (frontmatter, added).

(** Callback of [addPropertiesToFile]. *)
Definition addProperties_fn (properties : list PropertyDefinition.t)
    (frontmatter : Frontmatter) : Frontmatter * nat :=
  foldl addProperties_step (frontmatter, 0%nat) properties.

Definition addPropertiesToFile (file : TFile)
    (properties : list PropertyDefinition.t) : Async nat :=
  try_processFrontMatter file 0%nat (addProperties_fn properties).

(** Body of the loop in the callback of [removePropertiesFromFile]. *)
Definition removeProperties_step (acc : Frontmatter * nat) (key : string)
    : Frontmatter * nat :=
  let '(frontmatter, removed) := acc in
  if has_key key frontmatter
  then (delete key frontmatter, S removed)
  else (frontmatter, removed).

(** Callback of [removePropertiesFromFile]. *)
Definition removeProperties_fn (keys : list string)
    (frontmatter : Frontmatter) : Frontmatter * nat :=
  foldl removeProperties_step (frontmatter, 0%nat) keys.

Definition removePropertiesFromFile (file : TFile) (keys : list string)
    : Async nat :=
  try_processFrontMatter file 0%nat (removeProperties_fn keys).

(** Callback of [renamePropertyKey]: [oldKey in frontmatter] holds exactly
    when the read of [oldKey] yields a value, which is then assigned to
    [newKey] before the own key [oldKey] is deleted. *)
Definition renamePropertyKey_fn (oldKey newKey : string)
    (frontmatter : Frontmatter) : Frontmatter * bool :=
  match get oldKey frontmatter with
  | Some x => (delete oldKey (assign newKey x frontmatter), true)
  | None => (frontmatter, false)
  end.

Definition renamePropertyKey (file : TFile) (oldKey newKey : string)
    : Async bool :=
  try_processFrontMatter file false (renamePropertyKey_fn oldKey newKey).

(** Callback of [updatePropertyValue]. *)
Definition updatePropertyValue_fn (key : string) (value : JsValue)
    (addIfMissing : bool) (frontmatter : Frontmatter)
    : Frontmatter * UpdateResult.t :=
  if has_key key frontmatter
  then (assign key value frontmatter, UpdateResult.updated)
  else if addIfMissing
  then (assign key value frontmatter, UpdateResult.added)
  else (frontmatter, UpdateResult.none).

Definition updatePropertyValue (file : TFile) (key : string)
    (value : JsValue) (addIfMissing : bool) : Async UpdateResult.t :=
  try_processFrontMatter file UpdateResult.none
    (updatePropertyValue_fn key value addIfMissing).

(** [getDefaultValueForType] *)
Definition getDefaultValueForType (type : PropertyValueType) : JsValue :=
  match type with
  | checkbox => JBoolean false
  | number => JNumber 0%float
  | list_ => JArray []
  | date => JString EmptyString
  | _ => JString EmptyString
  end.

(** ** Aggregation engine *)

(** [getPropertiesFromFile]: the callback copies every own entry that
    passes the type guard into the fresh object [properties], by
    [properties[key] = value]. *)
Definition getProperties_fn (frontmatter : Frontmatter)
    : Frontmatter * Frontmatter :=
  (frontmatter,
   map_fold (λ key value (properties : Frontmatter),
               if isPropertyValue value then assign key value properties
               else properties)
            ∅ frontmatter).

Definition getPropertiesFromFile (file : TFile) : Async Frontmatter :=
  try_processFrontMatter file ∅ getProperties_fn.

(** The comparison [Set.prototype.add] uses.  Arrays and objects are
    compared by identity, and every parse builds fresh ones; a member of
    [Object.prototype] is the same object at every read. *)
Definition sameValueZero (a b : JsValue) : bool :=
  match a, b with
  | JString s, JString t => bool_decide (s = t)
  | JNumber x, JNumber y =>
      PrimFloat.eqb x y || (PrimFloat.is_nan x && PrimFloat.is_nan y)
  | JBoolean x, JBoolean y => bool_decide (x = y)
  | JNull, JNull => true
  | JPrototypeMember m, JPrototypeMember n => bool_decide (m = n)
  | _, _ => false
  end.

#[global] Instance PropertyValueType_eq_dec : EqDecision PropertyValueType.
Proof. solve_decision. Defined.

(** [set.add(x)] on a [Set] kept in insertion order. *)
Definition Set_add {A} (same : A → A → bool) (x : A) (s : list A) : list A :=
  if existsb (same x) s then s else s ++ [x].

Module ExistingProperty.
Record t : Type := mk {
  key : string;
  values : list JsValue;
  types : list PropertyValueType
}.
End ExistingProperty.

(** Body of the inner loop of [loadExistingProperties] for one entry. *)
Definition loadExisting_entry (key : string) (value : JsValue)
    (existingProperties : gmap string ExistingProperty.t)
    : gmap string ExistingProperty.t :=
  if bool_decide (key = "tags") then existingProperties
  else
    let existingProperties :=
      if bool_decide (is_Some (existingProperties !! key))
      then existingProperties
      else <[key := ExistingProperty.mk key [] []]> existingProperties in
    alter (λ prop,
             ExistingProperty.mk (ExistingProperty.key prop)
               (Set_add sameValueZero value (ExistingProperty.values prop))
               (Set_add (λ a b, bool_decide (a = b)) (detectValueType value)
                  (ExistingProperty.types prop)))
          key existingProperties.

(** [loadExistingProperties]: the map is cleared and refilled. *)
Definition loadExistingProperties (files : list TFile)
    : Async (gmap string ExistingProperty.t) :=
  for_of files
    (λ file existingProperties,
       props <- getPropertiesFromFile file ;;
       ret (map_fold loadExisting_entry existingProperties props))
    ∅.

(** ** Batch orchestration *)

(** What [handleSubmit] shows ([new Notice(...)]) and whether it went on
    to [this.close()]. *)
Record Submit : Type := mkSubmit { notice : string; closed : bool }.

(** The double quote character, as a string. *)
Definition dquote : string := String (ascii_of_nat 34) EmptyString.

(** The text of a counter inside a template literal. *)
Definition Number_toString (n : nat) : string :=
  NilEmpty.string_of_uint (Nat.to_uint n).

(** [AddPropertiesModal.handleSubmit] *)
Definition AddPropertiesModal_loop (files : list TFile)
    (validProps : list PropertyDefinition.t) : Async nat :=
  for_of files
    (λ file successCount,
       result <- addPropertiesToFile file validProps ;;
       ret (if (0 <? result)%nat then S successCount else successCount))
    0%nat.

Definition AddPropertiesModal_handleSubmit
    (propertiesToAdd : list PropertyDefinition.t) (files : list TFile)
    : Async Submit :=
  let validProps :=
    List.filter (λ p, nonempty (PropertyDefinition.key p)) propertiesToAdd in
  if (length validProps =? 0)%nat
  then ret (mkSubmit "Please add at least one property with a key" false)
  else
    successCount <- AddPropertiesModal_loop files validProps ;;
    ret (mkSubmit
           ("Added " +:+ Number_toString (length validProps)
              +:+ " property(ies) to " +:+ Number_toString successCount
              +:+ " file(s)")
           true).

(** [RemovePropertiesModal.handleSubmit] *)
Definition RemovePropertiesModal_loop (files : list TFile)
    (keysToRemove : list string) : Async nat :=
  for_of files
    (λ file successCount,
       removed <- removePropertiesFromFile file keysToRemove ;;
       ret (if (0 <? removed)%nat then S successCount else successCount))
    0%nat.

Definition RemovePropertiesModal_handleSubmit (selectedKeys : gset string)
    (files : list TFile) : Async Submit :=
  if (size selectedKeys =? 0)%nat
  then ret (mkSubmit "Please select at least one property to remove" false)
  else
    let keysToRemove := elements selectedKeys in
    successCount <- RemovePropertiesModal_loop files keysToRemove ;;
    ret (mkSubmit
           ("Removed " +:+ Number_toString (length keysToRemove)
              +:+ " property(ies) from " +:+ Number_toString successCount
              +:+ " file(s)")
           true).

(** [if (n > 0) messageParts.push(`label ${n}`)] *)
Definition push_counter (label : string) (n : nat) (messageParts : list string)
    : list string :=
  if (0 <? n)%nat then messageParts ++ [label +:+ " " +:+ Number_toString n]
  else messageParts.

(** [messageParts.length > 0 ? `Properties: ${messageParts.join(', ')}`
     : 'No changes made'] *)
Definition summary_message (messageParts : list string) : string :=
  if (0 <? length messageParts)%nat
  then "Properties: " +:+ String.concat ", " messageParts
  else "No changes made".

Module PropertyRename.
Record t : Type := mk { originalKey : string; newKey : string; enabled : bool }.
End PropertyRename.

Definition string_neq (a b : string) : bool := negb (bool_decide (a = b)).

(** [RenamePropertiesModal.handleSubmit] *)
Definition RenamePropertiesModal_enabledRenames
    (propertyRenames : list PropertyRename.t) : list PropertyRename.t :=
  List.filter
    (λ r, PropertyRename.enabled r
          && string_neq (PropertyRename.originalKey r) (PropertyRename.newKey r)
          && nonempty (PropertyRename.newKey r))
    propertyRenames.

Definition RenamePropertiesModal_loop (files : list TFile)
    (enabledRenames : list PropertyRename.t)
    (addToFilesWithoutProperty : bool) : Async (nat * nat) :=
  for_of files
    (λ file totals,
       for_of enabledRenames
         (λ rename '(totalRenamed, totalAdded),
            renamed <- renamePropertyKey file
                         (PropertyRename.originalKey rename)
                         (PropertyRename.newKey rename) ;;
            if renamed : bool then ret (S totalRenamed, totalAdded)
            else if addToFilesWithoutProperty then
              added <- addPropertiesToFile file
                         [PropertyDefinition.mk (PropertyRename.newKey rename)
                            (JString EmptyString) text] ;;
              ret (totalRenamed,
                   if (0 <? added)%nat then S totalAdded else totalAdded)
            else ret (totalRenamed, totalAdded))
         totals)
    (0%nat, 0%nat).

Definition RenamePropertiesModal_handleSubmit
    (propertyRenames : list PropertyRename.t)
    (addToFilesWithoutProperty : bool) (files : list TFile) : Async Submit :=
  let enabledRenames := RenamePropertiesModal_enabledRenames propertyRenames in
  if (length enabledRenames =? 0)%nat
  then ret (mkSubmit "Please select at least one property and change its name"
              false)
  else
    totals <-
      RenamePropertiesModal_loop files enabledRenames addToFilesWithoutProperty ;;
    let '(totalRenamed, totalAdded) := totals in
    let messageParts := push_counter "renamed" totalRenamed [] in
    let messageParts := push_counter "added" totalAdded messageParts in
    ret (mkSubmit (summary_message messageParts) true).

Module PropertyValueEdit.
Record t : Type := mk {
  key : string;
  enabled : bool;
  type : PropertyValueType;
  value : JsValue;
  originalValue : JsValue
}.
End PropertyValueEdit.

(** [EditValuesModal.handleSubmit] *)
Definition EditValuesModal_loop (files : list TFile)
    (enabledEdits : list PropertyValueEdit.t)
    (addToFilesWithoutProperty : bool) : Async (nat * nat) :=
  for_of files
    (λ file totals,
       for_of enabledEdits
         (λ edit '(totalUpdated, totalAdded),
            result <- updatePropertyValue file (PropertyValueEdit.key edit)
                        (PropertyValueEdit.value edit)
                        addToFilesWithoutProperty ;;
            ret (match result with
                 | UpdateResult.updated => (S totalUpdated, totalAdded)
                 | UpdateResult.added => (totalUpdated, S totalAdded)
                 | UpdateResult.none => (totalUpdated, totalAdded)
                 end))
         totals)
    (0%nat, 0%nat).

Definition EditValuesModal_handleSubmit
    (propertyEdits : list PropertyValueEdit.t)
    (addToFilesWithoutProperty : bool) (files : list TFile) : Async Submit :=
  let enabledEdits := List.filter PropertyValueEdit.enabled propertyEdits in
  if (length enabledEdits =? 0)%nat
  then ret (mkSubmit "Please select at least one property to update" false)
  else
    totals <-
      EditValuesModal_loop files enabledEdits addToFilesWithoutProperty ;;
    let '(totalUpdated, totalAdded) := totals in
    let messageParts := push_counter "updated" totalUpdated [] in
    let messageParts := push_counter "added" totalAdded messageParts in
    ret (mkSubmit (summary_message messageParts) true).

Module PropertyEdit.
Record t : Type := mk {
  originalKey : string;
  newKey : string;
  enabled : bool;
  updateValue : bool;
  type : PropertyValueType;
  value : JsValue;
  originalValue : JsValue
}.
End PropertyEdit.

(** The three totals of [EditPropertiesModal.handleSubmit]. *)
Record EditTotals : Type := mkEditTotals {
  totalRenamed : nat;
  totalUpdated : nat;
  totalAdded : nat
}.

(** Body of the inner loop of [EditPropertiesModal.handleSubmit]: one
    enabled edit applied to one file. *)
Definition EditPropertiesModal_step (addToFilesWithoutProperty : bool)
    (file : TFile) (edit : PropertyEdit.t) (totals : EditTotals)
    : Async EditTotals :=
  let keyRenamed :=
    string_neq (PropertyEdit.originalKey edit) (PropertyEdit.newKey edit)
    && nonempty (PropertyEdit.newKey edit) in
  let targetKey :=
    if keyRenamed then PropertyEdit.newKey edit
    else PropertyEdit.originalKey edit in
  totals <-
    (if keyRenamed then
       renamed <- renamePropertyKey file (PropertyEdit.originalKey edit)
                    (PropertyEdit.newKey edit) ;;
       ret (if renamed : bool
            then mkEditTotals (S (totalRenamed totals)) (totalUpdated totals)
                   (totalAdded totals)
            else totals)
     else ret totals) ;;
  if PropertyEdit.updateValue edit then
    result <- updatePropertyValue file targetKey (PropertyEdit.value edit)
                addToFilesWithoutProperty ;;
    ret (match result with
         | UpdateResult.updated =>
             mkEditTotals (totalRenamed totals) (S (totalUpdated totals))
               (totalAdded totals)
         | UpdateResult.added =>
             mkEditTotals (totalRenamed totals) (totalUpdated totals)
               (S (totalAdded totals))
         | UpdateResult.none => totals
         end)
  else ret totals.

Definition EditPropertiesModal_loop (files : list TFile)
    (enabledEdits : list PropertyEdit.t) (addToFilesWithoutProperty : bool)
    : Async EditTotals :=
  for_of files
    (λ file totals,
       for_of enabledEdits
         (EditPropertiesModal_step addToFilesWithoutProperty file) totals)
    (mkEditTotals 0 0 0).

Definition EditPropertiesModal_handleSubmit
    (propertyEdits : list PropertyEdit.t) (addToFilesWithoutProperty : bool)
    (files : list TFile) : Async Submit :=
  let enabledEdits := List.filter PropertyEdit.enabled propertyEdits in
  if (length enabledEdits =? 0)%nat
  then ret (mkSubmit "Please enable at least one property to edit" false)
  else
    let hasValidEdit :=
      existsb
        (λ edit,
           PropertyEdit.updateValue edit
           || (string_neq (PropertyEdit.originalKey edit)
                 (PropertyEdit.newKey edit)
               && nonempty (PropertyEdit.newKey edit)))
        enabledEdits in
    if negb hasValidEdit
    then ret (mkSubmit
                ("Please rename a property or enable " +:+ dquote +:+ "Update"
                   +:+ dquote +:+ " to change values")
                false)
    else
      totals <-
        EditPropertiesModal_loop files enabledEdits addToFilesWithoutProperty ;;
      let messageParts := push_counter "renamed" (totalRenamed totals) [] in
      let messageParts := push_counter "updated" (totalUpdated totals) messageParts in
      let messageParts := push_counter "added" (totalAdded totals) messageParts in
      ret (mkSubmit (summary_message messageParts) true).

(** ** Reference notions used to state the properties *)

(** A character among [0]..[9]. *)
Definition decimal_digit (c : ascii) : Prop :=
  c ∈ ["0"; "1"; "2"; "3"; "4"; "5"; "6"; "7"; "8"; "9"]%char.

(** The shape [YYYY-MM-DD]: ten characters, digits except for the two
    hyphens. *)
Definition date_shaped (s : string) : Prop :=
  ∃ y1 y2 y3 y4 m1 m2 d1 d2 : ascii,
    Forall decimal_digit [y1; y2; y3; y4; m1; m2; d1; d2]
    ∧ s = String y1 (String y2 (String y3 (String y4 (String "-"
            (String m1 (String m2 (String "-"
              (String d1 (String d2 EmptyString))))))))).

(** The folder's direct Markdown children, in child order. *)
Definition directFiles (folder : TFolder) : list TFile :=
  omap (λ c, match c with
             | inl f => if is_md f then Some f else None
             | inr _ => None
             end)
       (children_of folder).

(** [at_depth d folder f]: the file [f] lies [d] folders below [folder]
    (its direct children are at depth 0). *)
Inductive at_depth : nat → TFolder → TFile → Prop :=
| at_depth_child p cs f :
    inl f ∈ cs → at_depth 0 (mkTFolder p cs) f
| at_depth_below p cs sub d f :
    inr sub ∈ cs → at_depth d sub f → at_depth (S d) (mkTFolder p cs) f.

(** How many nodes of the subtree of [folder] are the file [f]. *)
Fixpoint occurrences (f : TFile) (folder : TFolder) {struct folder} : nat :=
  match folder with
  | mkTFolder _ cs =>
    (fix go (cs : list (TFile + TFolder)) : nat :=
       match cs with
       | [] => 0
       | inl g :: rest => (if decide (g = f) then 1 else 0) + go rest
       | inr sub :: rest => occurrences f sub + go rest
       end)%nat cs
  end.

(** What the loop of [getFilesFromFolder] contributes for one child. *)
Definition visit (includeSubfolders : bool) (depthLevel currentDepth : Z)
    (c : TFile + TFolder) : list TFile :=
  match c with
  | inl f => if is_md f then [f] else []
  | inr sub =>
      if includeSubfolders
         && ((depthLevel =? -1) || (currentDepth <? depthLevel))
      then getFilesFromFolder sub includeSubfolders depthLevel (currentDepth + 1)
      else []
  end.

(** "Direct files first": the listing starts with all direct Markdown
    children of the folder. *)
Definition directFilesFirst (folder : TFolder) (includeSubfolders : bool)
    (depthLevel : Z) : Prop :=
  ∃ below,
    getFilesFromFolder folder includeSubfolders depthLevel 0
    = directFiles folder ++ below.

(** A summary made of the non-zero counters only, and the explicit text
    when there is none. *)
Definition summary_of_counters (counters : list (string * nat)) : string :=
  match List.filter (λ c, negb (c.2 =? 0)%nat) counters with
  | [] => "No changes made"
  | nonzero =>
      "Properties: "
        +:+ String.concat ", "
              (map (λ c, c.1 +:+ " " +:+ Number_toString c.2) nonzero)
  end.

(** The [tags] entry of a document. *)
Definition tags_of (v : Vault) (p : string) : option JsValue :=
  v !! p ≫= λ block, block !! "tags".

#[global] Instance decimal_digit_dec (c : ascii) : Decision (decimal_digit c).
Proof. unfold decimal_digit. apply _. Defined.

(** ** Sample documents and folders for the worked examples *)

Definition a_md : TFile := mkTFile "a.md" "md".
Definition b_md : TFile := mkTFile "b.md" "md".

Definition draft_block : Frontmatter := {[ "status" := JString "draft" ]}.

Definition one_doc_vault : Vault := {[ "a.md" := draft_block ]}.

(** A folder whose first child is a subfolder. *)
Definition x_md : TFile := mkTFile "notes/sub/x.md" "md".
Definition y_md : TFile := mkTFile "notes/y.md" "md".

Definition notes_folder : TFolder :=
  mkTFolder "notes" [inr (mkTFolder "notes/sub" [inl x_md]); inl y_md].


(** A property whose key the sample document already has. *)
Definition status_again : list PropertyDefinition.t :=
  [PropertyDefinition.mk "status" (JString "kept") text].

(** Two documents: [a.md] has [status] and [priority], [b.md] only
    [priority]. *)
Definition two_doc_vault : Vault :=
  {[ "a.md" := {[ "status" := JString "draft"; "priority" := JString "low" ]};
     "b.md" := {[ "priority" := JString "low" ]} ]}.

Definition rename_status : list PropertyRename.t :=
  [PropertyRename.mk "status" "state" true].

(** A document whose [status] key has no value. *)
Definition null_status_vault : Vault := {[ "a.md" := {[ "status" := JNull ]} ]}.

(** The user types [tags] as the key of a new property, or as the new name
    of [status]. *)
Definition add_tags : list PropertyDefinition.t :=
  [PropertyDefinition.mk "tags" (JString "project") text].

(** A document whose front matter has an entry under [__proto__] itself. *)
Definition proto_vault : Vault :=
  {[ "a.md" := {[ "__proto__" := JString "x"; "status" := JString "draft" ]} ]}.

(** The user also types [constructor], a name every block inherits. *)
Definition add_tags_and_constructor : list PropertyDefinition.t :=
  add_tags ++ [PropertyDefinition.mk "constructor" (JString "x") text].

Definition rename_status_to_tags : list PropertyRename.t :=
  [PropertyRename.mk "status" "tags" true].

(** A document that carries [tags] next to [status]. *)
Definition tagged_vault : Vault :=
  {[ "a.md" := {[ "status" := JString "draft";
                  "tags" := JArray [JString "project"] ]} ]}.

(** Every value the aggregation holds has passed [isPropertyValue]. *)
Definition guarded_values (existing : gmap string ExistingProperty.t) : Prop :=
  map_Forall
    (λ _ prop,
       Forall (λ value, isPropertyValue value = true)
         (ExistingProperty.values prop))
    existing.

(** ** Reference notions for the further properties *)

(** What one more observed value makes of the aggregated record of a key
    ([None] when the key has not been seen yet). *)
Definition aggregate_value (key : string) (value : JsValue)
    (old : option ExistingProperty.t) : ExistingProperty.t :=
  let prop := default (ExistingProperty.mk key [] []) old in
  ExistingProperty.mk (ExistingProperty.key prop)
    (Set_add sameValueZero value (ExistingProperty.values prop))
    (Set_add (λ a b, bool_decide (a = b)) (detectValueType value)
       (ExistingProperty.types prop)).


(** The value [x] is stored under [k] in one of the documents [files]. *)
Definition observed_in (vault : Vault) (files : list TFile) (k : string)
    (x : JsValue) : Prop :=
  ∃ file block,
    file ∈ files ∧ vault !! path file = Some block ∧ block !! k = Some x.

(** The entry of key [k] in the document at path [p]. *)
Definition entry_of (v : Vault) (p k : string) : option JsValue :=
  v !! p ≫= λ block, block !! k.

(** What one enabled row promises for one document: the key holds the
    row's value whenever the key is there, and also, for a key other than
    [__proto__], whenever missing keys are added or the key is a name of
    [Object.prototype]. *)
Definition edit_applied (addToFilesWithoutProperty : bool)
    (edit : PropertyValueEdit.t) (file : TFile) (v : Vault) : Prop :=
  ∀ block,
    v !! path file = Some block →
    is_Some (block !! PropertyValueEdit.key edit)
    ∨ (PropertyValueEdit.key edit ≠ "__proto__"
       ∧ (addToFilesWithoutProperty = true
          ∨ inherited (PropertyValueEdit.key edit) = true)) →
    block !! PropertyValueEdit.key edit = Some (PropertyValueEdit.value edit).

(** ** The folder picker *)

(** [collectFolders] of [FolderPickerModal.getAllFolders]: push the
    folder onto the captured array [folders], then visit its subfolders
    in child order. *)
Fixpoint collectFolders (folder : TFolder) (folders : list TFolder)
    {struct folder} : list TFolder :=
  match folder with
  | mkTFolder _ cs =>
    (fix loop (cs : list (TFile + TFolder)) (folders : list TFolder)
       {struct cs} : list TFolder :=
       match cs with
       | [] => folders
       | inl _ :: rest => loop rest folders
       | inr child :: rest => loop rest (collectFolders child folders)
       end) cs (folders ++ [folder])
  end.

(** [getAllFolders], from the vault's root folder. *)
Definition getAllFolders (root : TFolder) : list TFolder :=
  collectFolders root [].

(** [in_subtree root d]: [d] is [root] or a folder below it. *)
Inductive in_subtree : TFolder → TFolder → Prop :=
| in_subtree_root d : in_subtree d d
| in_subtree_below p cs sub d :
    inr sub ∈ cs → in_subtree sub d → in_subtree (mkTFolder p cs) d.

(** The number of folder levels below [folder]. *)
Fixpoint height (folder : TFolder) {struct folder} : nat :=
  match folder with
  | mkTFolder _ cs =>
    (fix go (cs : list (TFile + TFolder)) : nat :=
       match cs with
       | [] => 0
       | inl _ :: rest => go rest
       | inr sub :: rest => Nat.max (S (height sub)) (go rest)
       end)%nat cs
  end.

(** What [collectFolders] contributes for one child. *)
Definition visit_folder (c : TFile + TFolder) : list TFolder :=
  match c with
  | inl _ => []
  | inr sub => collectFolders sub []
  end.

(** ** File selection *)

Module FolderOptions.
Record t : Type := mk { includeSubfolders : bool; depthLevel : Z }.
End FolderOptions.

(** [PropertyAction] as [FileSelectionModal] uses it:
    ['add' | 'remove' | 'edit']. *)
Inductive PropertyAction : Type :=
| action_add | action_remove | action_edit.

(** ['folder' | 'files'] *)
Inductive SelectionMode : Type :=
| mode_folder | mode_files.

(** The modal [handleContinue] constructs and opens. *)
Inductive OpenedModal : Type :=
| open_AddPropertiesModal (files : list TFile) (folder : option TFolder)
| open_RemovePropertiesModal (files : list TFile) (folder : option TFolder)
| open_EditPropertiesModal (files : list TFile) (folder : option TFolder).

Definition opened_files (m : OpenedModal) : list TFile :=
  match m with
  | open_AddPropertiesModal files _
  | open_RemovePropertiesModal files _
  | open_EditPropertiesModal files _ => files
  end.

Definition opened_folder (m : OpenedModal) : option TFolder :=
  match m with
  | open_AddPropertiesModal _ folder
  | open_RemovePropertiesModal _ folder
  | open_EditPropertiesModal _ folder => folder
  end.

(** [FileSelectionModal.handleContinue]: a notice and an early return
    ([inl]), or the modal that is opened after [this.close()] ([inr]). *)
Definition FileSelectionModal_handleContinue (action : PropertyAction)
    (selectionMode : SelectionMode) (selectedFolder : option TFolder)
    (selectedFiles : list TFile) (folderOptions : FolderOptions.t)
    : string + OpenedModal :=
  let continue (files : list TFile) (folder : option TFolder) :=
    if (length files =? 0)%nat
    then inl "No Markdown files found in selection"
    else inr (match action with
              | action_add => open_AddPropertiesModal files folder
              | action_remove => open_RemovePropertiesModal files folder
              | action_edit => open_EditPropertiesModal files folder
              end) in
  match selectionMode with
  | mode_folder =>
      match selectedFolder with
      | None => inl "Please select a folder"
      | Some folder =>
          continue
            (getFilesFromFolder folder
               (FolderOptions.includeSubfolders folderOptions)
               (FolderOptions.depthLevel folderOptions) 0)
            (Some folder)
      end
  | mode_files =>
      if (length selectedFiles =? 0)%nat
      then inl "Please select at least one file"
      else continue selectedFiles None
  end.

(** ** The rows of the rename and update-values forms *)

(** [Array.prototype.sort] with a [localeCompare] comparator orders by a
    collation that is not modelled: the sort is a parameter [sort_by], of
    which the properties only use that it permutes its argument. *)
Definition SortBy : Type := ∀ A : Type, (A → string) → list A → list A.

(** [RenamePropertiesModal.initializePropertyRenames]: one row per
    aggregated key, in sorted order. *)
Definition RenamePropertiesModal_initializePropertyRenames (sort_by : SortBy)
    (existingProperties : gmap string ExistingProperty.t)
    : list PropertyRename.t :=
  (λ key, PropertyRename.mk key key false)
    <$> sort_by string (λ key, key) (map_to_list existingProperties).*1.


(** ** The list field of the forms *)

(** The text of an input field as the sequence of its UTF-16 code units,
    the unit in which [split], [trim] and [join] see a string; the white
    space [trim] strips reaches beyond the ASCII range. *)
Abbreviation CodeUnits := (list N).

(** [','] is the one code unit U+002C. *)
Definition is_comma (c : N) : bool := (c =? 44)%N.

(** [value.split(',')]: the pieces between the commas (one piece more than
    there are commas). *)
Fixpoint split_comma (s : CodeUnits) : list CodeUnits :=
  match s with
  | [] => [[]]
  | c :: rest =>
      if is_comma c then [] :: split_comma rest
      else match split_comma rest with
           | piece :: pieces => (c :: piece) :: pieces
           | [] => [[c]]
           end
  end.

(** The code units [trim] strips, the white space and the line
    terminators of the language standard: U+0009 to U+000D, U+0020,
    U+00A0, U+1680, U+2000 to U+200A, U+2028, U+2029, U+202F, U+205F,
    U+3000 and U+FEFF.  Each of them is a single code unit. *)
Definition isWhiteSpace (c : N) : bool :=
  ((9 <=? c) && (c <=? 13) || (c =? 32) || (c =? 160) || (c =? 5760)
   || (8192 <=? c) && (c <=? 8202) || (c =? 8232) || (c =? 8233)
   || (c =? 8239) || (c =? 8287) || (c =? 12288) || (c =? 65279))%N.

(** [s.trim()]: the white space is stripped from the start and from the
    end. *)
Fixpoint trimStart (s : CodeUnits) : CodeUnits :=
  match s with
  | [] => []
  | c :: rest => if isWhiteSpace c then trimStart rest else s
  end.

Fixpoint trimEnd (s : CodeUnits) : CodeUnits :=
  match s with
  | [] => []
  | c :: rest =>
      match trimEnd rest with
      | [] => if isWhiteSpace c then [] else [c]
      | kept => c :: kept
      end
  end.

Definition trim (s : CodeUnits) : CodeUnits := trimEnd (trimStart s).

(** A string as a condition: true unless it is empty. *)
Definition truthy (s : CodeUnits) : bool :=
  match s with [] => false | _ => true end.

(** The [onChange] handler of the list field:
    [value.split(',').map((s) => s.trim()).filter((s) => s)]. *)
Definition parse_list (value : CodeUnits) : list CodeUnits :=
  List.filter truthy (map trim (split_comma value)).

(** [items.join(separator)] *)
Fixpoint join (separator : CodeUnits) (items : list CodeUnits) : CodeUnits :=
  match items with
  | [] => []
  | [item] => item
  | item :: others => item ++ separator ++ join separator others
  end.

(** What the list field shows for a stored list: [value.join(', ')]. *)
Definition show_list (items : list CodeUnits) : CodeUnits :=
  join [44; 32]%N items.

Definition has_comma (s : CodeUnits) : bool := existsb is_comma s.

(** An item as the list field produces it: not empty, without a comma,
    and neither starting nor ending with white space. *)
Definition clean_item (item : CodeUnits) : Prop :=
  item ≠ []
  ∧ has_comma item = false
  ∧ (∀ c, head item = Some c → isWhiteSpace c = false)
  ∧ (∀ c, last item = Some c → isWhiteSpace c = false).

(** The text [a ,<U+00A0>b c ,, ] typed into a list field, and the lists
    [b c] alone and [draft], [to do]. *)
Definition typed_list : CodeUnits :=
  [97; 32; 44; 160; 98; 32; 99; 32; 44; 44; 32]%N.

Definition item_b_c : CodeUnits := [98; 32; 99]%N.

Definition draft_and_to_do : list CodeUnits :=
  [[100; 114; 97; 102; 116]; [116; 111; 32; 100; 111]]%N.

(** * Verified properties *)

(** ** The store wrapper *)

Section Store.
Context {A : Type} (file : TFile) (init : A)
        (fn : Frontmatter → Frontmatter * A).

Lemma try_processFrontMatter_open (v : Vault) (block : Frontmatter) :
  v !! path file = Some block →
  try_processFrontMatter file init fn v
  = (<[path file := (fn block).1]> v, (fn block).2).
Proof.
  intros Hv. unfold try_processFrontMatter, bind, processFrontMatter, ret.
  rewrite Hv. by destruct (fn block).
Qed.

Lemma try_processFrontMatter_rejected (v : Vault) :
  v !! path file = None →
  try_processFrontMatter file init fn v = (v, init).
Proof.
  intros Hv. unfold try_processFrontMatter, bind, processFrontMatter, ret.
  by rewrite Hv.
Qed.
End Store.

Lemma try_processFrontMatter_lookup {A} (file : TFile) (init : A)
    (fn : Frontmatter → Frontmatter * A) (v : Vault) (p : string) :
  (try_processFrontMatter file init fn v).1 !! p
  = if decide (p = path file) then (λ block, (fn block).1) <$> v !! p
    else v !! p.
Proof.
  destruct (v !! path file) as [block|] eqn:Hv.
  - rewrite (try_processFrontMatter_open _ _ _ _ _ Hv). cbn [fst].
    destruct (decide (p = path file)) as [-> | Hp].
    + by rewrite lookup_insert_eq, Hv.
    + by rewrite lookup_insert_ne.
  - rewrite (try_processFrontMatter_rejected _ _ _ _ Hv). cbn [fst].
    destruct (decide (p = path file)) as [-> | Hp]; [| done].
    by rewrite Hv.
Qed.

Lemma for_of_cons {A S} (x : A) (xs : list A) (body : A → S → Async S)
    (s : S) (v : Vault) :
  for_of (x :: xs) body s v
  = for_of xs body (body x s v).2 (body x s v).1.
Proof. cbn [for_of]. unfold bind. by destruct (body x s v). Qed.

(** ** The block as an object *)

Lemma has_key_true (key : string) (frontmatter : Frontmatter) :
  has_key key frontmatter = true
  ↔ is_Some (frontmatter !! key) ∨ inherited key = true.
Proof.
  unfold has_key. by rewrite orb_true_iff, bool_decide_eq_true.
Qed.

Lemma has_key_false (key : string) (frontmatter : Frontmatter) :
  has_key key frontmatter = false
  ↔ frontmatter !! key = None ∧ inherited key = false.
Proof.
  unfold has_key.
  by rewrite orb_false_iff, bool_decide_eq_false, eq_None_not_Some.
Qed.

Lemma has_key_own (key : string) (frontmatter : Frontmatter) :
  is_Some (frontmatter !! key) → has_key key frontmatter = true.
Proof. intros H. apply has_key_true. by left. Qed.

Lemma has_key_inherited (key : string) (frontmatter : Frontmatter) :
  inherited key = true → has_key key frontmatter = true.
Proof. intros H. apply has_key_true. by right. Qed.


Lemma get_own (key : string) (x : JsValue) (frontmatter : Frontmatter) :
  frontmatter !! key = Some x → get key frontmatter = Some x.
Proof. intros H. unfold get. by rewrite H. Qed.


(** An assignment is an insertion, except through the accessor. *)
Lemma assign_insert (key : string) (value : JsValue)
    (frontmatter : Frontmatter) :
  key ≠ "__proto__" ∨ is_Some (frontmatter !! key) →
  assign key value frontmatter = <[key := value]> frontmatter.
Proof.
  intros H. unfold assign.
  destruct (bool_decide (key = "__proto__")) eqn:Hk; [| done].
  apply bool_decide_eq_true in Hk.
  destruct H as [H|H]; [done |]. by rewrite bool_decide_eq_true_2.
Qed.

Lemma assign_not_inherited (key : string) (value : JsValue)
    (frontmatter : Frontmatter) :
  inherited key = false →
  assign key value frontmatter = <[key := value]> frontmatter.
Proof.
  intros H. apply assign_insert. left. intros ->. discriminate H.
Qed.

Lemma assign_accessor (value : JsValue) (frontmatter : Frontmatter) :
  frontmatter !! "__proto__" = None →
  assign "__proto__" value frontmatter = frontmatter.
Proof.
  intros H. unfold assign. rewrite bool_decide_eq_true_2 by done.
  rewrite bool_decide_eq_false_2; [done |]. rewrite H. by intros [? ?].
Qed.

(** An assignment touches no other key, and never removes one. *)
Lemma lookup_assign_ne (key other : string) (value : JsValue)
    (frontmatter : Frontmatter) :
  key ≠ other → assign key value frontmatter !! other = frontmatter !! other.
Proof.
  intros H. unfold assign.
  destruct (_ && _); [done |]. by rewrite lookup_insert_ne.
Qed.

Lemma lookup_assign_eq (key : string) (value : JsValue)
    (frontmatter : Frontmatter) :
  assign key value frontmatter !! key = Some value
  ∨ (key = "__proto__" ∧ frontmatter !! key = None
     ∧ assign key value frontmatter = frontmatter).
Proof.
  unfold assign.
  destruct (bool_decide (key = "__proto__")) eqn:Hk;
    destruct (bool_decide (is_Some (frontmatter !! key))) eqn:Ho; cbn;
    try (left; by rewrite lookup_insert_eq).
  right. apply bool_decide_eq_true in Hk. apply bool_decide_eq_false in Ho.
  by rewrite <- eq_None_not_Some in Ho.
Qed.

Lemma has_key_assign_eq (key : string) (value : JsValue)
    (frontmatter : Frontmatter) :
  has_key key (assign key value frontmatter) = true.
Proof.
  destruct (lookup_assign_eq key value frontmatter) as [H | (-> & _ & _)].
  - apply has_key_own. rewrite H. by eexists.
  - by apply has_key_inherited.
Qed.

Lemma assign_assign (key : string) (v w : JsValue)
    (frontmatter : Frontmatter) :
  assign key w (assign key v frontmatter) = assign key w frontmatter.
Proof.
  unfold assign at 2 3.
  destruct (bool_decide (key = "__proto__")
            && negb (bool_decide (is_Some (frontmatter !! key)))) eqn:Hc.
  - unfold assign. by rewrite Hc.
  - rewrite assign_insert.
    + by rewrite insert_insert_eq.
    + right. rewrite lookup_insert_eq. by eexists.
Qed.

Lemma nonempty_true (s : string) : nonempty s = true ↔ s ≠ EmptyString.
Proof. destruct s; cbn; split; (congruence || done). Qed.

Lemma string_neq_true (a b : string) : string_neq a b = true ↔ a ≠ b.
Proof.
  unfold string_neq. rewrite negb_true_iff. by rewrite bool_decide_eq_false.
Qed.



(** ** The operations on a document that can be opened *)

Lemma updatePropertyValue_open (vault : Vault) (file : TFile)
    (block : Frontmatter) (k : string) (v : JsValue) (addIfMissing : bool) :
  vault !! path file = Some block →
  updatePropertyValue file k v addIfMissing vault
  = if has_key k block
    then (<[path file := assign k v block]> vault, UpdateResult.updated)
    else if addIfMissing
    then (<[path file := <[k := v]> block]> vault, UpdateResult.added)
    else (vault, UpdateResult.none).
Proof.
  intros Hv. unfold updatePropertyValue.
  rewrite (try_processFrontMatter_open _ _ _ _ _ Hv).
  unfold updatePropertyValue_fn.
  destruct (has_key k block) eqn:Hk; [done |].
  apply has_key_false in Hk as [_ Hk].
  destruct addIfMissing; cbn.
  - by rewrite assign_not_inherited.
  - by rewrite insert_id.
Qed.

Lemma renamePropertyKey_open (vault : Vault) (file : TFile)
    (block : Frontmatter) (oldKey newKey : string) :
  vault !! path file = Some block →
  renamePropertyKey file oldKey newKey vault
  = match get oldKey block with
    | Some x =>
        (<[path file := delete oldKey (assign newKey x block)]> vault, true)
    | None => (vault, false)
    end.
Proof.
  intros Hv. unfold renamePropertyKey.
  rewrite (try_processFrontMatter_open _ _ _ _ _ Hv).
  unfold renamePropertyKey_fn. destruct (get oldKey block); cbn; [done |].
  by rewrite insert_id.
Qed.

(** ** updatePropertyValue *)




(** ** renamePropertyKey *)

Lemma enabledRenames_elem (propertyRenames : list PropertyRename.t)
    (r : PropertyRename.t) :
  r ∈ RenamePropertiesModal_enabledRenames propertyRenames ↔
  r ∈ propertyRenames
  ∧ PropertyRename.enabled r = true
  ∧ PropertyRename.originalKey r ≠ PropertyRename.newKey r
  ∧ PropertyRename.newKey r ≠ EmptyString.
Proof.
  unfold RenamePropertiesModal_enabledRenames.
  rewrite !list_elem_of_In, filter_In, !andb_true_iff.
  rewrite string_neq_true, nonempty_true. tauto.
Qed.

(** C10: on a block that contains [k], [renamePropertyKey] with both keys
    equal to [k] deletes [k] from the block and returns [true]: the
    function has no guard of its own.  Its callers never make that call:
    the rows [RenamePropertiesModal.handleSubmit] applies all have
    [originalKey ≠ newKey], and [EditPropertiesModal.handleSubmit] skips
    the rename of an edit whose two keys are equal. *)
Theorem renamePropertyKey_self_rename_deletes (vault : Vault) (file : TFile)
    (block : Frontmatter) (k : string) (x : JsValue) :
  vault !! path file = Some block →
  block !! k = Some x →
  renamePropertyKey file k k vault
  = (<[path file := delete k block]> vault, true)
  ∧ (∀ propertyRenames r,
       r ∈ RenamePropertiesModal_enabledRenames propertyRenames →
       PropertyRename.originalKey r ≠ PropertyRename.newKey r)
  ∧ (∀ addToFilesWithoutProperty edit totals,
       PropertyEdit.originalKey edit = PropertyEdit.newKey edit →
       PropertyEdit.updateValue edit = false →
       EditPropertiesModal_step addToFilesWithoutProperty file edit totals vault
       = (vault, totals)).
Proof.
  intros Hv Hk. repeat split.
  - rewrite (renamePropertyKey_open _ _ _ _ _ Hv), (get_own _ _ _ Hk).
    rewrite assign_insert by (right; by eexists).
    by rewrite delete_insert_eq.
  - intros rs r Hr. apply enabledRenames_elem in Hr. tauto.
  - intros flag edit totals Heq Hupd. unfold EditPropertiesModal_step.
    assert (string_neq (PropertyEdit.originalKey edit)
              (PropertyEdit.newKey edit) = false) as ->.
    { unfold string_neq. by rewrite bool_decide_eq_true_2. }
    cbn. by rewrite Hupd.
Qed.

Lemma renamePropertyKey_self_rename_deletes_witness :
  one_doc_vault !! path a_md = Some draft_block
  ∧ draft_block !! "status" = Some (JString "draft")
  ∧ renamePropertyKey a_md "status" "status" one_doc_vault
    = (<[path a_md := delete "status" draft_block]> one_doc_vault, true).
Proof.
  assert (Hv : one_doc_vault !! path a_md = Some draft_block) by reflexivity.
  assert (Hk : draft_block !! "status" = Some (JString "draft"))
    by reflexivity.
  split; [exact Hv |]. split; [exact Hk |].
  exact (proj1 (renamePropertyKey_self_rename_deletes one_doc_vault a_md
                  draft_block "status" (JString "draft") Hv Hk)).
Defined.

(** ** addPropertiesToFile *)

Lemma addProperties_step_eq (frontmatter : Frontmatter) (added : nat)
    (prop : PropertyDefinition.t) :
  addProperties_step (frontmatter, added) prop
  = if negb (nonempty (PropertyDefinition.key prop))
    then (frontmatter, added)
    else if negb (has_key (PropertyDefinition.key prop) frontmatter)
    then (<[PropertyDefinition.key prop := PropertyDefinition.value prop]>
            frontmatter, S added)
    else (frontmatter, added).
Proof.
  unfold addProperties_step.
  destruct (nonempty (PropertyDefinition.key prop)); cbn [negb]; [| done].
  destruct (has_key (PropertyDefinition.key prop) frontmatter) eqn:Hin;
    cbn [negb]; [done |].
  apply has_key_false in Hin as [_ Hin]. by rewrite assign_not_inherited.
Qed.

Lemma addProperties_fold (properties : list PropertyDefinition.t) :
  ∀ (frontmatter : Frontmatter) (added : nat),
    let r := foldl addProperties_step (frontmatter, added) properties in
    (∀ k x, frontmatter !! k = Some x → r.1 !! k = Some x)
    ∧ (size r.1 + added = size frontmatter + r.2)%nat.
Proof.
  induction properties as [|prop properties IH]; intros fm n; cbn [foldl].
  - cbn. split; [done | lia].
  - rewrite addProperties_step_eq.
    destruct (nonempty (PropertyDefinition.key prop));
      cbn [negb]; [| apply IH].
    destruct (has_key (PropertyDefinition.key prop) fm) eqn:Hin;
      cbn [negb]; [apply IH |].
    apply has_key_false in Hin as [Hin _].
    destruct (IH (<[PropertyDefinition.key prop
                    := PropertyDefinition.value prop]> fm) (S n)) as [Hkeep Hsize].
    split.
    + intros k x Hk. apply Hkeep. rewrite lookup_insert_ne; [done |].
      intros <-. congruence.
    + rewrite map_size_insert_None in Hsize by done. lia.
Qed.

Lemma addProperties_fn_single (k : string) (v : JsValue)
    (ty : PropertyValueType) (frontmatter : Frontmatter) :
  let r := addProperties_fn [PropertyDefinition.mk k v ty] frontmatter in
  addProperties_fn [PropertyDefinition.mk k v ty] r.1 = (r.1, 0%nat).
Proof.
  unfold addProperties_fn. cbn [foldl]. rewrite !addProperties_step_eq.
  cbn [PropertyDefinition.key PropertyDefinition.value].
  destruct (nonempty k) eqn:Hk; cbn [negb fst]; rewrite ?Hk; [| done].
  destruct (has_key k frontmatter) eqn:Hin; cbn [negb fst].
  - by rewrite Hin.
  - assert (has_key k (<[k := v]> frontmatter) = true) as ->; [| done].
    apply has_key_own. rewrite lookup_insert_eq. by eexists.
Qed.

(** C3: [addPropertiesToFile] keeps every entry the block already has, with
    its value, and the number it returns is the number of keys the block
    gained.  Running it a second time with the same single-key list
    changes nothing (in particular not the value the first run set) and
    returns 0. *)
Theorem addPropertiesToFile_never_overwrites :
  (∀ (vault : Vault) (file : TFile) (block : Frontmatter)
     (properties : list PropertyDefinition.t),
     vault !! path file = Some block →
     ∃ block',
       (addPropertiesToFile file properties vault).1 !! path file = Some block'
       ∧ (∀ k x, block !! k = Some x → block' !! k = Some x)
       ∧ size block'
         = (size block + (addPropertiesToFile file properties vault).2)%nat)
  ∧ (∀ (vault : Vault) (file : TFile) (k : string) (v : JsValue)
       (ty : PropertyValueType),
       let first :=
         addPropertiesToFile file [PropertyDefinition.mk k v ty] vault in
       let second :=
         addPropertiesToFile file [PropertyDefinition.mk k v ty] first.1 in
       second.2 = 0%nat ∧ second.1 = first.1).
Proof.
  split.
  - intros vault file block props Hv. unfold addPropertiesToFile.
    rewrite (try_processFrontMatter_open _ _ _ _ _ Hv). cbn.
    exists (addProperties_fn props block).1.
    rewrite lookup_insert_eq. split; [done |].
    destruct (addProperties_fold props block 0) as [Hkeep Hsize].
    split; [exact Hkeep |]. unfold addProperties_fn. lia.
  - intros vault file k v ty. cbn zeta. unfold addPropertiesToFile.
    destruct (vault !! path file) as [block|] eqn:Hv.
    + rewrite (try_processFrontMatter_open _ _ _ _ _ Hv). cbn [fst snd].
      erewrite try_processFrontMatter_open by apply lookup_insert_eq.
      rewrite addProperties_fn_single. cbn [fst snd].
      by rewrite insert_insert_eq.
    + rewrite (try_processFrontMatter_rejected _ _ _ _ Hv). cbn [fst snd].
      by rewrite (try_processFrontMatter_rejected _ _ _ _ Hv).
Qed.

Lemma addPropertiesToFile_never_overwrites_witness :
  one_doc_vault !! path a_md = Some draft_block
  ∧ ∃ block',
      (addPropertiesToFile a_md
         [PropertyDefinition.mk "status" (JString "final") text;
          PropertyDefinition.mk "priority" (JString "high") text]
         one_doc_vault).1 !! path a_md = Some block'
      ∧ (∀ k x, draft_block !! k = Some x → block' !! k = Some x)
      ∧ size block'
        = (size draft_block
           + (addPropertiesToFile a_md
                [PropertyDefinition.mk "status" (JString "final") text;
                 PropertyDefinition.mk "priority" (JString "high") text]
                one_doc_vault).2)%nat.
Proof.
  split; [reflexivity |].
  apply (proj1 addPropertiesToFile_never_overwrites). reflexivity.
Defined.

(** ** detectValueType *)

Lemma is_digit_decide (c : ascii) : is_digit c = bool_decide (decimal_digit c).
Proof. by destruct c as [[] [] [] [] [] [] [] []]; vm_compute. Qed.

Lemma is_digit_true (c : ascii) : is_digit c = true ↔ decimal_digit c.
Proof. by rewrite is_digit_decide, bool_decide_eq_true. Qed.

Lemma regex_test_nil (s : string) :
  regex_test [] s = true ↔ s = EmptyString.
Proof. by destruct s. Qed.

Lemma regex_test_cons (a : Atom) (p : list Atom) (s : string) :
  regex_test (a :: p) s = true ↔
  ∃ c s', s = String c s' ∧ atom_matches a c = true ∧ regex_test p s' = true.
Proof.
  destruct s as [|c s]; cbn [regex_test].
  - split; [done | by intros (? & ? & ? & _)].
  - rewrite andb_true_iff. split.
    + intros [? ?]. by exists c, s.
    + intros (? & ? & [= <- <-] & ? & ?). done.
Qed.

Lemma atom_matches_lit (d c : ascii) : atom_matches (Lit d) c = true ↔ c = d.
Proof. cbn. by destruct (decide (c = d)). Qed.

Lemma date_regex_atoms :
  date_regex
  = [Digit; Digit; Digit; Digit; Lit "-"; Digit; Digit; Lit "-"; Digit; Digit].
Proof. reflexivity. Qed.

(** The pattern accepts exactly the strings of the shape [YYYY-MM-DD]. *)
Lemma date_regex_shape (s : string) :
  regex_test date_regex s = true ↔ date_shaped s.
Proof.
  rewrite date_regex_atoms. unfold date_shaped. split.
  - intros H.
    repeat (apply regex_test_cons in H as (? & ? & -> & ? & H)).
    apply regex_test_nil in H as ->.
    repeat match goal with
           | Hm : atom_matches (Lit _) _ = true |- _ =>
               apply atom_matches_lit in Hm as ->
           | Hm : atom_matches Digit _ = true |- _ =>
               apply is_digit_true in Hm
           end.
    do 8 eexists. split; [| reflexivity].
    repeat (constructor; [assumption |]). constructor.
  - intros (y1 & y2 & y3 & y4 & m1 & m2 & d1 & d2 & Hd & ->).
    repeat match goal with
           | Hf : Forall _ (_ :: _) |- _ =>
               apply Forall_cons in Hf as [?%is_digit_true Hf]
           end.
    cbn [regex_test atom_matches].
    repeat match goal with Hi : is_digit _ = true |- _ => rewrite Hi; clear Hi end.
    reflexivity.
Qed.

(** C2: [detectValueType] depends on its argument only and decides in this
    order: a boolean is [checkbox], a number is [number], an array (so any
    list of strings) is [list], a string of the shape [YYYY-MM-DD] is
    [date], and every other value, [null] included, is [text] (an object
    and a member of [Object.prototype] too).  Two calls on the same value
    give the same tag. *)
Theorem detectValueType_priority :
  (∀ b, detectValueType (JBoolean b) = checkbox)
  ∧ (∀ x, detectValueType (JNumber x) = number)
  ∧ (∀ items, detectValueType (JArray items) = list_)
  ∧ (∀ s, date_shaped s → detectValueType (JString s) = date)
  ∧ (∀ s, ¬ date_shaped s → detectValueType (JString s) = text)
  ∧ detectValueType JNull = text
  ∧ (∀ fields, detectValueType (JObject fields) = text)
  ∧ (∀ name, detectValueType (JPrototypeMember name) = text)
  ∧ (∀ v, let first := detectValueType v in
          let second := detectValueType v in first = second).
Proof.
  repeat split.
  - intros s Hs. apply date_regex_shape in Hs. unfold detectValueType.
    by rewrite Hs.
  - intros s Hs. unfold detectValueType.
    destruct (regex_test date_regex s) eqn:Ht; [| done].
    by apply date_regex_shape in Ht.
Qed.

Lemma detectValueType_priority_witness :
  date_shaped "2024-01-31"
  ∧ detectValueType (JString "2024-01-31") = date
  ∧ ¬ date_shaped "2024-1-31"
  ∧ detectValueType (JString "2024-1-31") = text.
Proof.
  assert (Hy : date_shaped "2024-01-31") by (by apply date_regex_shape).
  assert (Hn : ¬ date_shaped "2024-1-31").
  { intros H. apply date_regex_shape in H. discriminate H. }
  pose proof detectValueType_priority as (_ & _ & _ & Hdate & Htext & _).
  split; [exact Hy |]. split; [exact (Hdate _ Hy) |].
  split; [exact Hn | exact (Htext _ Hn)].
Defined.

(** ** getFilesFromFolder *)

(** Induction on a folder with the property available for every direct
    subfolder. *)
Lemma TFolder_subfolder_ind (P : TFolder → Prop) :
  (∀ p cs,
     Forall (λ c, match c with inl _ => True | inr sub => P sub end) cs →
     P (mkTFolder p cs)) →
  ∀ folder, P folder.
Proof.
  intros H. fix IH 1. intros [p cs]. apply H.
  induction cs as [|[f|sub] cs IHcs]; constructor; try assumption.
  - exact I.
  - apply IH.
Qed.

(** The loop, child by child: each child contributes its [visit], in child
    order. *)
Lemma getFilesFromFolder_visit (p : string) (cs : list (TFile + TFolder))
    (includeSubfolders : bool) (depthLevel currentDepth : Z) :
  getFilesFromFolder (mkTFolder p cs) includeSubfolders depthLevel currentDepth
  = cs ≫= visit includeSubfolders depthLevel currentDepth.
Proof.
  transitivity ([] ++ (cs ≫= visit includeSubfolders depthLevel currentDepth));
    [| done].
  cbn [getFilesFromFolder].
  match goal with
  | |- ?loop cs [] = _ =>
      enough (∀ files,
                loop cs files
                = files ++ (cs ≫= visit includeSubfolders depthLevel currentDepth))
        as Hloop by apply Hloop
  end.
  induction cs as [|[f|sub] cs IH]; intros files.
  - cbn. by rewrite app_nil_r.
  - cbn [mbind list_bind visit]. destruct (is_md f); rewrite IH.
    + by rewrite <- app_assoc.
    + done.
  - cbn [mbind list_bind visit].
    destruct (includeSubfolders
              && ((depthLevel =? -1) || (currentDepth <? depthLevel)));
      rewrite IH.
    + by rewrite <- app_assoc.
    + done.
Qed.

Lemma getFilesFromFolder_no_descent (folder : TFolder)
    (includeSubfolders : bool) (depthLevel currentDepth : Z) :
  includeSubfolders && ((depthLevel =? -1) || (currentDepth <? depthLevel))
  = false →
  getFilesFromFolder folder includeSubfolders depthLevel currentDepth
  = directFiles folder.
Proof.
  intros Hno. destruct folder as [p cs]. rewrite getFilesFromFolder_visit.
  unfold directFiles. cbn [children_of].
  induction cs as [|[f|sub] cs IH]; [done | |].
  - cbn [mbind list_bind omap list_omap visit].
    destruct (is_md f); by rewrite IH.
  - cbn [mbind list_bind omap list_omap visit]. rewrite Hno. by rewrite IH.
Qed.

Lemma elem_of_getFilesFromFolder (folder : TFolder) :
  ∀ (depthLevel currentDepth : Z) (f : TFile),
    depthLevel = -1 ∨ 0 ≤ currentDepth ≤ depthLevel →
    f ∈ getFilesFromFolder folder true depthLevel currentDepth ↔
    is_md f = true
    ∧ ∃ d : nat,
        (depthLevel = -1 ∨ currentDepth + Z.of_nat d ≤ depthLevel)
        ∧ at_depth d folder f.
Proof.
  induction folder as [p cs IH] using TFolder_subfolder_ind.
  intros N cur f Hrange. rewrite Forall_forall in IH.
  rewrite getFilesFromFolder_visit, list_elem_of_bind. split.
  - intros ([g|sub] & Hf & Hc); cbn [visit andb] in Hf.
    + destruct (is_md g) eqn:Hmd; [| by apply elem_of_nil in Hf].
      apply list_elem_of_singleton in Hf as ->. split; [done |].
      exists 0%nat. split; [lia |]. by constructor.
    + destruct ((N =? -1) || (cur <? N)) eqn:Hgo;
        [| by apply elem_of_nil in Hf].
      apply (IH _ Hc) in Hf as (Hmd & d & Hd & Hat); [| lia].
      split; [done |]. exists (S d). split; [lia |].
      by apply at_depth_below with sub.
  - intros (Hmd & d & Hd & Hat). inversion Hat as [? ? ? Hc | ? ? sub d' ? Hc Hsub]; subst.
    + exists (inl f). split; [| done]. cbn [visit]. rewrite Hmd.
      by apply list_elem_of_singleton.
    + exists (inr sub). split; [| done]. cbn [visit andb].
      assert ((N =? -1) || (cur <? N) = true) as -> by lia.
      apply (IH _ Hc); [lia |]. split; [done |]. exists d'. split; [lia | done].
Qed.

Lemma count_occ_getFilesFromFolder (folder : TFolder) :
  ∀ (currentDepth : Z) (f : TFile),
    count_occ TFile_eq_dec (getFilesFromFolder folder true (-1) currentDepth) f
    = if is_md f then occurrences f folder else 0%nat.
Proof.
  induction folder as [p cs IH] using TFolder_subfolder_ind.
  intros cur f. rewrite getFilesFromFolder_visit. cbn [occurrences].
  induction cs as [|[g|sub] cs IHcs].
  - cbn. by destruct (is_md f).
  - apply Forall_cons in IH as [_ IH]. specialize (IHcs IH).
    cbn [mbind list_bind visit]. rewrite count_occ_app, IHcs.
    destruct (decide (g = f)) as [-> | Hne].
    + destruct (is_md f); cbn [count_occ]; [| done].
      by destruct (TFile_eq_dec f f).
    + destruct (is_md g); cbn [count_occ].
      * destruct (TFile_eq_dec g f); [done |]. by destruct (is_md f).
      * by destruct (is_md f).
  - apply Forall_cons in IH as [Hsub IH]. specialize (IHcs IH).
    cbn [mbind list_bind visit andb]. rewrite count_occ_app, IHcs.
    change ((-1 =? -1) || (cur <? -1)) with true. cbn iota.
    rewrite Hsub. destruct (is_md f); lia.
Qed.

(** C8: with [includeSubfolders = true], depth level 0 lists exactly the
    folder's direct Markdown children; depth level -1 lists every Markdown
    file of the subtree, each as many times as it occurs in the tree (once,
    in a tree that holds it once); depth level [N] lists exactly the
    Markdown files that lie at most [N] folders below the starting folder.
    With [includeSubfolders = false] the listing is the direct Markdown
    children whatever the depth level. *)
Theorem getFilesFromFolder_depth :
  (∀ folder, getFilesFromFolder folder true 0 0 = directFiles folder)
  ∧ (∀ folder f,
       count_occ TFile_eq_dec (getFilesFromFolder folder true (-1) 0) f
       = if is_md f then occurrences f folder else 0%nat)
  ∧ (∀ folder f,
       f ∈ getFilesFromFolder folder true (-1) 0 ↔
       is_md f = true ∧ ∃ d : nat, at_depth d folder f)
  ∧ (∀ folder (N : nat) f,
       f ∈ getFilesFromFolder folder true (Z.of_nat N) 0 ↔
       is_md f = true ∧ ∃ d : nat, (d ≤ N)%nat ∧ at_depth d folder f)
  ∧ (∀ folder depthLevel,
       getFilesFromFolder folder false depthLevel 0 = directFiles folder).
Proof.
  split; [| split; [| split; [| split]]].
  - intros folder. by apply getFilesFromFolder_no_descent.
  - intros folder f. apply count_occ_getFilesFromFolder.
  - intros folder f. rewrite elem_of_getFilesFromFolder by (by left).
    split; intros (Hmd & d & Hd); (split; [done |]); exists d; [tauto |].
    split; [by left | done].
  - intros folder N f. rewrite elem_of_getFilesFromFolder by lia.
    split; intros (Hmd & d & Hd & Hat); (split; [done |]); exists d;
      (split; [lia | done]).
  - intros folder depthLevel. by apply getFilesFromFolder_no_descent.
Qed.

(** C9, as stated, fails: in [notes_folder] the subfolder comes before the
    direct file [y.md], and the listing has the subfolder's [x.md] first. *)
Lemma getFilesFromFolder_not_direct_files_first :
  getFilesFromFolder notes_folder true (-1) 0 = [x_md; y_md]
  ∧ directFiles notes_folder = [y_md]
  ∧ ¬ directFilesFirst notes_folder true (-1).
Proof.
  split; [reflexivity |]. split; [reflexivity |].
  intros [below Hb]. vm_compute in Hb. discriminate Hb.
Qed.

(** C9 (amended): the listing follows the folder's child order: the listing
    of a folder whose children are [cs1 ++ cs2] is the listing for [cs1]
    followed by the listing for [cs2]; a Markdown file contributes itself
    at its own position, another file nothing, and a subfolder contributes
    its own listing (one level deeper) at the subfolder's position when
    descent is allowed, and nothing otherwise. *)
Theorem getFilesFromFolder_child_order :
  (∀ p cs1 cs2 includeSubfolders depthLevel currentDepth,
     getFilesFromFolder (mkTFolder p (cs1 ++ cs2)) includeSubfolders
       depthLevel currentDepth
     = getFilesFromFolder (mkTFolder p cs1) includeSubfolders depthLevel
         currentDepth
       ++ getFilesFromFolder (mkTFolder p cs2) includeSubfolders depthLevel
            currentDepth)
  ∧ (∀ p f includeSubfolders depthLevel currentDepth,
       getFilesFromFolder (mkTFolder p [inl f]) includeSubfolders depthLevel
         currentDepth
       = if is_md f then [f] else [])
  ∧ (∀ p sub includeSubfolders depthLevel currentDepth,
       getFilesFromFolder (mkTFolder p [inr sub]) includeSubfolders depthLevel
         currentDepth
       = if includeSubfolders
            && ((depthLevel =? -1) || (currentDepth <? depthLevel))
         then getFilesFromFolder sub includeSubfolders depthLevel
                (currentDepth + 1)
         else []).
Proof.
  split; [| split].
  - intros. rewrite !getFilesFromFolder_visit. apply bind_app.
  - intros. rewrite getFilesFromFolder_visit. cbn [mbind list_bind visit].
    by rewrite app_nil_r.
  - intros. rewrite getFilesFromFolder_visit. cbn [mbind list_bind visit].
    by rewrite app_nil_r.
Qed.

(** ** EditPropertiesModal.handleSubmit: rename, then update *)








(** ** Batch summaries *)

Lemma summary_two_counters (l1 l2 : string) (n1 n2 : nat) :
  summary_message (push_counter l2 n2 (push_counter l1 n1 []))
  = summary_of_counters [(l1, n1); (l2, n2)].
Proof. by destruct n1, n2. Qed.

Lemma summary_three_counters (l1 l2 l3 : string) (n1 n2 n3 : nat) :
  summary_message
    (push_counter l3 n3 (push_counter l2 n2 (push_counter l1 n1 [])))
  = summary_of_counters [(l1, n1); (l2, n2); (l3, n3)].
Proof. by destruct n1, n2, n3. Qed.

Lemma summary_of_counters_all_zero (counters : list (string * nat)) :
  Forall (λ c, c.2 = 0%nat) counters →
  summary_of_counters counters = "No changes made".
Proof.
  intros Hz. unfold summary_of_counters.
  assert (List.filter (λ c, negb (c.2 =? 0)%nat) counters = []) as ->; [| done].
  induction Hz as [|[l n] cs Hn _ IH]; [done |].
  cbn in Hn. subst n. exact IH.
Qed.

Lemma summary_of_counters_nonempty (counters : list (string * nat)) :
  summary_of_counters counters ≠ EmptyString.
Proof.
  unfold summary_of_counters.
  by destruct (List.filter (λ c, negb (c.2 =? 0)%nat) counters).
Qed.

(** C5, as stated, fails for the add (and remove) summary: adding a key
    that the only file already has affects no file, and the notice still
    prints the zero instead of the "no changes" text. *)
Lemma add_summary_prints_zero_counter :
  (AddPropertiesModal_loop [a_md] status_again one_doc_vault).2 = 0%nat
  ∧ (AddPropertiesModal_handleSubmit status_again [a_md] one_doc_vault).2
    = mkSubmit "Added 1 property(ies) to 0 file(s)" true
  ∧ notice (AddPropertiesModal_handleSubmit status_again [a_md] one_doc_vault).2
    ≠ summary_of_counters [("added", 0%nat)].
Proof.
  split; [reflexivity |]. split; [reflexivity |]. discriminate.
Qed.

(** C5 (amended): a rename run, an update-values run and a run of the
    combined edit end with the summary made of their non-zero counters
    only, which is the text [No changes made] when every counter is zero
    and is never empty.  An
    add run and a remove run end with the fixed sentence that prints the
    number of properties and the number of affected files, zero included,
    and never with [No changes made]. *)
Theorem batch_summary_by_operation :
  (∀ propertyRenames addToFilesWithoutProperty files vault,
     let run :=
       RenamePropertiesModal_handleSubmit propertyRenames
         addToFilesWithoutProperty files vault in
     let totals :=
       RenamePropertiesModal_loop files
         (RenamePropertiesModal_enabledRenames propertyRenames)
         addToFilesWithoutProperty vault in
     closed run.2 = true →
     run.1 = totals.1
     ∧ notice run.2
       = summary_of_counters
           [("renamed", totals.2.1); ("added", totals.2.2)])
  ∧ (∀ propertyEdits addToFilesWithoutProperty files vault,
       let run :=
         EditValuesModal_handleSubmit propertyEdits addToFilesWithoutProperty
           files vault in
       let totals :=
         EditValuesModal_loop files
           (List.filter PropertyValueEdit.enabled propertyEdits)
           addToFilesWithoutProperty vault in
       closed run.2 = true →
       run.1 = totals.1
       ∧ notice run.2
         = summary_of_counters
             [("updated", totals.2.1); ("added", totals.2.2)])
  ∧ (∀ propertyEdits addToFilesWithoutProperty files vault,
       let run :=
         EditPropertiesModal_handleSubmit propertyEdits
           addToFilesWithoutProperty files vault in
       let totals :=
         EditPropertiesModal_loop files
           (List.filter PropertyEdit.enabled propertyEdits)
           addToFilesWithoutProperty vault in
       closed run.2 = true →
       run.1 = totals.1
       ∧ notice run.2
         = summary_of_counters
             [("renamed", totalRenamed totals.2);
              ("updated", totalUpdated totals.2);
              ("added", totalAdded totals.2)])
  ∧ (∀ propertiesToAdd files vault,
       let run := AddPropertiesModal_handleSubmit propertiesToAdd files vault in
       let validProps :=
         List.filter (λ p, nonempty (PropertyDefinition.key p))
           propertiesToAdd in
       closed run.2 = true →
       notice run.2
       = "Added " +:+ Number_toString (length validProps)
           +:+ " property(ies) to "
           +:+ Number_toString (AddPropertiesModal_loop files validProps vault).2
           +:+ " file(s)"
       ∧ notice run.2 ≠ "No changes made")
  ∧ (∀ selectedKeys files vault,
       let run := RemovePropertiesModal_handleSubmit selectedKeys files vault in
       closed run.2 = true →
       notice run.2
       = "Removed " +:+ Number_toString (size selectedKeys)
           +:+ " property(ies) from "
           +:+ Number_toString
                 (RemovePropertiesModal_loop files (elements selectedKeys)
                    vault).2
           +:+ " file(s)"
       ∧ notice run.2 ≠ "No changes made")
  ∧ (∀ counters,
       Forall (λ c, c.2 = 0%nat) counters →
       summary_of_counters counters = "No changes made")
  ∧ (∀ counters, summary_of_counters counters ≠ EmptyString).
Proof.
  split; [| split; [| split; [| split; [| split; [| split]]]]].
  - intros renames flag files vault. cbn zeta.
    unfold RenamePropertiesModal_handleSubmit.
    destruct (length (RenamePropertiesModal_enabledRenames renames) =? 0)%nat;
      [discriminate |].
    intros _. unfold bind, ret.
    destruct (RenamePropertiesModal_loop files _ flag vault) as [v' [r a]].
    cbn [fst snd notice]. split; [done |]. apply summary_two_counters.
  - intros edits flag files vault. cbn zeta.
    unfold EditValuesModal_handleSubmit.
    destruct (length (List.filter PropertyValueEdit.enabled edits) =? 0)%nat;
      [discriminate |].
    intros _. unfold bind, ret.
    destruct (EditValuesModal_loop files _ flag vault) as [v' [u a]].
    cbn [fst snd notice]. split; [done |]. apply summary_two_counters.
  - intros edits flag files vault. cbn zeta.
    unfold EditPropertiesModal_handleSubmit.
    destruct (length (List.filter PropertyEdit.enabled edits) =? 0)%nat;
      [discriminate |].
    destruct (negb (existsb _ _)); [discriminate |].
    intros _. unfold bind, ret.
    destruct (EditPropertiesModal_loop files _ flag vault) as [v' totals].
    cbn [fst snd notice]. split; [done |]. apply summary_three_counters.
  - intros props files vault. cbn zeta.
    unfold AddPropertiesModal_handleSubmit.
    destruct (length _ =? 0)%nat; [discriminate |].
    intros _. unfold bind, ret.
    destruct (AddPropertiesModal_loop files _ vault) as [v' n].
    cbn [fst snd notice]. split; [done | discriminate].
  - intros selected files vault. cbn zeta.
    unfold RemovePropertiesModal_handleSubmit.
    destruct (size selected =? 0)%nat; [discriminate |].
    intros _. unfold bind, ret.
    destruct (RemovePropertiesModal_loop files _ vault) as [v' n].
    cbn [fst snd notice]. split; [done | discriminate].
  - apply summary_of_counters_all_zero.
  - apply summary_of_counters_nonempty.
Qed.

Lemma batch_summary_by_operation_witness :
  let run :=
    RenamePropertiesModal_handleSubmit rename_status true [a_md; b_md]
      two_doc_vault in
  let totals :=
    RenamePropertiesModal_loop [a_md; b_md]
      (RenamePropertiesModal_enabledRenames rename_status) true
      two_doc_vault in
  closed run.2 = true
  ∧ totals.2 = (1%nat, 1%nat)
  ∧ notice run.2 = "Properties: renamed 1, added 1"
  ∧ run.1 = totals.1
  ∧ notice run.2
    = summary_of_counters [("renamed", totals.2.1); ("added", totals.2.2)].
Proof.
  cbn zeta. split; [reflexivity |]. split; [reflexivity |].
  split; [reflexivity |].
  apply (proj1 batch_summary_by_operation rename_status true [a_md; b_md]
           two_doc_vault).
  reflexivity.
Defined.

(** ** The reserved key [tags] *)

(** A loop keeps what each of its iterations keeps. *)
Lemma for_of_invariant {A S} (I : Vault → S → Prop) (xs : list A)
    (body : A → S → Async S) :
  (∀ x s v, x ∈ xs → I v s → I (body x s v).1 (body x s v).2) →
  ∀ s v, I v s → I (for_of xs body s v).1 (for_of xs body s v).2.
Proof.
  induction xs as [|x xs IH]; intros Hbody s v Hi; [done |].
  cbn [for_of]. unfold bind.
  specialize (Hbody x s v (list_elem_of_here _ _) Hi) as Hx.
  destruct (body x s v) as [v' s']. apply IH; [| done].
  intros y s0 v0 Hy. apply Hbody. by apply list_elem_of_further.
Qed.

Lemma tags_of_try_processFrontMatter {A} (file : TFile) (init : A)
    (fn : Frontmatter → Frontmatter * A) (v : Vault) (p : string) :
  (∀ block, (fn block).1 !! "tags" = block !! "tags") →
  tags_of (try_processFrontMatter file init fn v).1 p = tags_of v p.
Proof.
  intros Hfn. destruct (v !! path file) as [block|] eqn:Hv.
  - rewrite (try_processFrontMatter_open _ _ _ _ _ Hv). cbn [fst].
    unfold tags_of. destruct (decide (path file = p)) as [<- | Hp].
    + rewrite lookup_insert_eq, Hv. cbn. apply Hfn.
    + by rewrite lookup_insert_ne.
  - by rewrite (try_processFrontMatter_rejected _ _ _ _ Hv).
Qed.

Lemma addProperties_fn_tags (properties : list PropertyDefinition.t)
    (block : Frontmatter) :
  Forall (λ prop, PropertyDefinition.key prop ≠ "tags") properties →
  (addProperties_fn properties block).1 !! "tags" = block !! "tags".
Proof.
  unfold addProperties_fn. generalize 0%nat. revert block.
  induction properties as [|prop props IH]; intros block n Hk; [done |].
  apply Forall_cons in Hk as [Hprop Hk]. cbn [foldl].
  rewrite addProperties_step_eq.
  destruct (negb (nonempty (PropertyDefinition.key prop))); [by apply IH |].
  destruct (negb (has_key (PropertyDefinition.key prop) block));
    [| by apply IH].
  rewrite IH by done. by rewrite lookup_insert_ne.
Qed.

Lemma removeProperties_fn_tags (keys : list string) (block : Frontmatter) :
  Forall (λ key, key ≠ "tags") keys →
  (removeProperties_fn keys block).1 !! "tags" = block !! "tags".
Proof.
  unfold removeProperties_fn. generalize 0%nat. revert block.
  induction keys as [|key keys IH]; intros block n Hk; [done |].
  apply Forall_cons in Hk as [Hkey Hk]. cbn [foldl removeProperties_step].
  destruct (has_key key block); [| by apply IH].
  rewrite IH by done. by rewrite lookup_delete_ne.
Qed.

Lemma renamePropertyKey_fn_tags (oldKey newKey : string) (block : Frontmatter) :
  oldKey ≠ "tags" → newKey ≠ "tags" →
  (renamePropertyKey_fn oldKey newKey block).1 !! "tags" = block !! "tags".
Proof.
  intros Hold Hnew. unfold renamePropertyKey_fn.
  destruct (get oldKey block); [| done]. cbn [fst].
  rewrite lookup_delete_ne by done. by rewrite lookup_assign_ne.
Qed.

Lemma updatePropertyValue_fn_tags (key : string) (value : JsValue)
    (addIfMissing : bool) (block : Frontmatter) :
  key ≠ "tags" →
  (updatePropertyValue_fn key value addIfMissing block).1 !! "tags"
  = block !! "tags".
Proof.
  intros Hkey. unfold updatePropertyValue_fn.
  destruct (has_key key block); cbn [fst]; [by rewrite lookup_assign_ne |].
  destruct addIfMissing; cbn [fst]; [by rewrite lookup_assign_ne | done].
Qed.

(** ** Aggregation *)

(** The copy loop of [getPropertiesFromFile] keeps exactly the entries that
    pass the type guard, except an entry under the key [__proto__]: the
    assignment to that name of the fresh object stores nothing. *)
Lemma getProperties_fn_filter (block : Frontmatter) :
  (getProperties_fn block).2
  = filter (λ kv, isPropertyValue kv.2 = true ∧ kv.1 ≠ "__proto__") block.
Proof.
  unfold getProperties_fn. cbn [snd].
  apply (map_fold_weak_ind
           (λ r m, r = filter (λ kv, isPropertyValue kv.2 = true
                                     ∧ kv.1 ≠ "__proto__") m)).
  - by rewrite map_filter_empty.
  - intros k x m r Hk ->. destruct (isPropertyValue x) eqn:Hx.
    + destruct (decide (k = "__proto__")) as [-> | Hp].
      * rewrite assign_accessor.
        -- rewrite map_filter_insert_not'; [done | cbn; tauto |].
           intros y Hy. congruence.
        -- apply map_lookup_filter_None. left. exact Hk.
      * rewrite assign_insert by auto. by rewrite map_filter_insert_True.
    + rewrite map_filter_insert_not'; [done | cbn; intros [? _]; congruence |].
      intros y Hy. congruence.
Qed.

Lemma getPropertiesFromFile_guarded (file : TFile) (vault : Vault) :
  map_Forall (λ _ value, isPropertyValue value = true)
    (getPropertiesFromFile file vault).2.
Proof.
  unfold getPropertiesFromFile.
  destruct (vault !! path file) as [block|] eqn:Hv.
  - rewrite (try_processFrontMatter_open _ _ _ _ _ Hv). cbn [snd].
    rewrite getProperties_fn_filter. intros k x Hk.
    apply map_lookup_filter_Some in Hk as [_ [Hx _]]. exact Hx.
  - rewrite (try_processFrontMatter_rejected _ _ _ _ Hv). cbn [snd].
    apply map_Forall_empty.
Qed.

Lemma loadExisting_entry_tags (key : string) (value : JsValue)
    (existingProperties : gmap string ExistingProperty.t) :
  existingProperties !! "tags" = None →
  loadExisting_entry key value existingProperties !! "tags" = None.
Proof.
  intros Hnone. unfold loadExisting_entry.
  destruct (bool_decide (key = "tags")) eqn:Hkey; [done |].
  apply bool_decide_eq_false in Hkey.
  rewrite lookup_alter_ne by done.
  destruct (bool_decide (is_Some (existingProperties !! key))); [done |].
  by rewrite lookup_insert_ne.
Qed.

Lemma loadExistingProperties_no_tags (files : list TFile) (vault : Vault) :
  (loadExistingProperties files vault).2 !! "tags" = None.
Proof.
  unfold loadExistingProperties.
  apply (for_of_invariant (λ _ existing, existing !! "tags" = None));
    [| apply lookup_empty].
  intros file existing v _ Hnone. unfold bind, ret.
  destruct (getPropertiesFromFile file v) as [v' props]. cbn [fst snd].
  apply (map_fold_weak_ind (λ r _, r !! "tags" = None)); [done |].
  intros k x m r _ Hr. by apply loadExisting_entry_tags.
Qed.

Lemma Set_add_Forall {A} (P : A → Prop) (same : A → A → bool) (x : A)
    (s : list A) :
  P x → Forall P s → Forall P (Set_add same x s).
Proof.
  intros Hx Hs. unfold Set_add. destruct (existsb (same x) s); [done |].
  apply Forall_app. split; [done |]. by constructor.
Qed.

Lemma loadExisting_entry_guarded (key : string) (value : JsValue)
    (existing : gmap string ExistingProperty.t) :
  isPropertyValue value = true →
  guarded_values existing →
  guarded_values (loadExisting_entry key value existing).
Proof.
  intros Hval Hg. unfold loadExisting_entry.
  destruct (bool_decide (key = "tags")); [done |].
  intros k prop Hk. destruct (decide (key = k)) as [<- | Hne].
  - rewrite lookup_alter_eq in Hk.
    destruct (bool_decide (is_Some (existing !! key))) eqn:Hhas.
    + apply bool_decide_eq_true in Hhas as [old Hold]. rewrite Hold in Hk.
      injection Hk as <-. cbn [ExistingProperty.values].
      apply Set_add_Forall; [done |]. by apply (Hg key).
    + rewrite lookup_insert_eq in Hk. injection Hk as <-.
      cbn [ExistingProperty.values]. apply Set_add_Forall; [done |].
      constructor.
  - rewrite lookup_alter_ne in Hk by done.
    destruct (bool_decide (is_Some (existing !! key))).
    + by apply (Hg k).
    + rewrite lookup_insert_ne in Hk by done. by apply (Hg k).
Qed.

Lemma loadExistingProperties_guarded (files : list TFile) (vault : Vault) :
  guarded_values (loadExistingProperties files vault).2.
Proof.
  unfold loadExistingProperties.
  apply (for_of_invariant (λ _ existing, guarded_values existing));
    [| apply map_Forall_empty].
  intros file existing v _ Hg. unfold bind, ret.
  pose proof (getPropertiesFromFile_guarded file v) as Hprops.
  destruct (getPropertiesFromFile file v) as [v' props]. cbn [fst snd] in *.
  revert Hprops.
  apply (map_fold_weak_ind
           (λ r m,
              map_Forall (λ _ value, isPropertyValue value = true) m →
              guarded_values r)); [done |].
  intros k x m r Hk IH Hall.
  apply map_Forall_insert in Hall as [Hx Hall]; [| done].
  apply loadExisting_entry_guarded; [done | by apply IH].
Qed.

(** No aggregated property holds [null]. *)
Lemma loadExistingProperties_never_null (files : list TFile) (vault : Vault)
    (k : string) (prop : ExistingProperty.t) :
  (loadExistingProperties files vault).2 !! k = Some prop →
  JNull ∉ ExistingProperty.values prop.
Proof.
  intros Hk Hin.
  pose proof (loadExistingProperties_guarded files vault k prop Hk) as Hg.
  rewrite Forall_forall in Hg. by specialize (Hg _ Hin).
Qed.

(** C7 fails on the code: the type guard rejects [null], so a key whose
    value is [null] is dropped when the file is read and the aggregation
    never sees it. *)
Theorem loadExistingProperties_drops_null :
  isPropertyValue JNull = false
  ∧ (getPropertiesFromFile a_md null_status_vault).2 = ∅
  ∧ (loadExistingProperties [a_md] null_status_vault).2 = ∅.
Proof.
  split; [reflexivity |]. split; reflexivity.
Qed.

Lemma AddPropertiesModal_loop_tags (files : list TFile)
    (validProps : list PropertyDefinition.t) (vault : Vault) (p : string) :
  Forall (λ prop, PropertyDefinition.key prop ≠ "tags") validProps →
  tags_of (AddPropertiesModal_loop files validProps vault).1 p
  = tags_of vault p.
Proof.
  intros Hk. unfold AddPropertiesModal_loop.
  apply (for_of_invariant (λ v (_ : nat), tags_of v p = tags_of vault p));
    [| done].
  intros file n v _ <-. unfold bind, ret, addPropertiesToFile.
  rewrite <- (tags_of_try_processFrontMatter file 0%nat
                (addProperties_fn validProps) v p)
    by (intros block; by apply addProperties_fn_tags).
  by destruct (try_processFrontMatter file 0%nat _ v).
Qed.

Lemma RemovePropertiesModal_loop_tags (files : list TFile)
    (keysToRemove : list string) (vault : Vault) (p : string) :
  Forall (λ key, key ≠ "tags") keysToRemove →
  tags_of (RemovePropertiesModal_loop files keysToRemove vault).1 p
  = tags_of vault p.
Proof.
  intros Hk. unfold RemovePropertiesModal_loop.
  apply (for_of_invariant (λ v (_ : nat), tags_of v p = tags_of vault p));
    [| done].
  intros file n v _ <-. unfold bind, ret, removePropertiesFromFile.
  rewrite <- (tags_of_try_processFrontMatter file 0%nat
                (removeProperties_fn keysToRemove) v p)
    by (intros block; by apply removeProperties_fn_tags).
  by destruct (try_processFrontMatter file 0%nat _ v).
Qed.

Lemma EditValuesModal_loop_tags (files : list TFile)
    (enabledEdits : list PropertyValueEdit.t)
    (addToFilesWithoutProperty : bool) (vault : Vault) (p : string) :
  Forall (λ edit, PropertyValueEdit.key edit ≠ "tags") enabledEdits →
  tags_of
    (EditValuesModal_loop files enabledEdits addToFilesWithoutProperty vault).1
    p
  = tags_of vault p.
Proof.
  intros Hk. unfold EditValuesModal_loop.
  apply (for_of_invariant
           (λ v (_ : nat * nat), tags_of v p = tags_of vault p)); [| done].
  intros file totals v _ Hv.
  apply (for_of_invariant
           (λ v (_ : nat * nat), tags_of v p = tags_of vault p)); [| done].
  intros edit [u a] v0 Hedit <-. rewrite Forall_forall in Hk.
  unfold bind, ret, updatePropertyValue.
  rewrite <- (tags_of_try_processFrontMatter file UpdateResult.none
                (updatePropertyValue_fn (PropertyValueEdit.key edit)
                   (PropertyValueEdit.value edit) addToFilesWithoutProperty)
                v0 p)
    by (intros block; apply updatePropertyValue_fn_tags; by apply Hk).
  by destruct (try_processFrontMatter file UpdateResult.none _ v0).
Qed.

Lemma RenamePropertiesModal_loop_tags (files : list TFile)
    (enabledRenames : list PropertyRename.t)
    (addToFilesWithoutProperty : bool) (vault : Vault) (p : string) :
  Forall (λ r, PropertyRename.originalKey r ≠ "tags"
               ∧ PropertyRename.newKey r ≠ "tags") enabledRenames →
  tags_of
    (RenamePropertiesModal_loop files enabledRenames addToFilesWithoutProperty
       vault).1 p
  = tags_of vault p.
Proof.
  intros Hk. unfold RenamePropertiesModal_loop.
  apply (for_of_invariant
           (λ v (_ : nat * nat), tags_of v p = tags_of vault p)); [| done].
  intros file totals v _ Hv.
  apply (for_of_invariant
           (λ v (_ : nat * nat), tags_of v p = tags_of vault p)); [| done].
  intros rename [r a] v0 Hrename <-. rewrite Forall_forall in Hk.
  destruct (Hk _ Hrename) as [Hold Hnew].
  unfold bind, ret, renamePropertyKey.
  pose proof (tags_of_try_processFrontMatter file false
                (renamePropertyKey_fn (PropertyRename.originalKey rename)
                   (PropertyRename.newKey rename)) v0 p
                (λ block, renamePropertyKey_fn_tags _ _ block Hold Hnew))
    as Hren.
  destruct (try_processFrontMatter file false _ v0) as [v1 [|]];
    cbn [fst] in *; [done |].
  destruct addToFilesWithoutProperty; cbn [fst]; [| done].
  unfold addPropertiesToFile.
  pose proof (tags_of_try_processFrontMatter file 0%nat
                (addProperties_fn
                   [PropertyDefinition.mk (PropertyRename.newKey rename)
                      (JString EmptyString) text]) v1 p) as Hadd.
  destruct (try_processFrontMatter file 0%nat _ v1) as [v2 n].
  cbn [fst] in *. rewrite Hadd; [done |].
  intros block. apply addProperties_fn_tags. by repeat constructor.
Qed.

(** C6, as stated, fails for writes: the add modal writes [tags] when the
    user enters it as a key, and the rename modal writes it when the user
    enters it as the new name. *)
Lemma tags_written_when_entered :
  tags_of one_doc_vault "a.md" = None
  ∧ tags_of
      (AddPropertiesModal_handleSubmit add_tags [a_md] one_doc_vault).1 "a.md"
    = Some (JString "project")
  ∧ tags_of
      (RenamePropertiesModal_handleSubmit rename_status_to_tags false [a_md]
         one_doc_vault).1 "a.md"
    = Some (JString "draft").
Proof. split; [reflexivity |]. split; reflexivity. Qed.

(** C6 (amended): [tags] is never read into the aggregation.  The keys the
    remove and update-values modals act on, and the original keys of the
    rename modal, are keys of an aggregation, so a remove run and an
    update-values run leave the [tags] entry of every document as it was,
    and so does a rename run unless the user enters [tags] as a new name,
    and an add run unless the user enters [tags] as a key. *)
Theorem tags_reserved_in_aggregation :
  (∀ files vault, (loadExistingProperties files vault).2 !! "tags" = None)
  ∧ (∀ files0 vault0 (selectedKeys : gset string) files vault p,
       selectedKeys ⊆ dom (loadExistingProperties files0 vault0).2 →
       tags_of
         (RemovePropertiesModal_handleSubmit selectedKeys files vault).1 p
       = tags_of vault p)
  ∧ (∀ files0 vault0 propertyEdits addToFilesWithoutProperty files vault p,
       Forall (λ edit, PropertyValueEdit.key edit
                       ∈ dom (loadExistingProperties files0 vault0).2)
         propertyEdits →
       tags_of
         (EditValuesModal_handleSubmit propertyEdits addToFilesWithoutProperty
            files vault).1 p
       = tags_of vault p)
  ∧ (∀ files0 vault0 propertyRenames addToFilesWithoutProperty files vault p,
       Forall (λ r, PropertyRename.originalKey r
                    ∈ dom (loadExistingProperties files0 vault0).2
                    ∧ PropertyRename.newKey r ≠ "tags")
         propertyRenames →
       tags_of
         (RenamePropertiesModal_handleSubmit propertyRenames
            addToFilesWithoutProperty files vault).1 p
       = tags_of vault p)
  ∧ (∀ propertiesToAdd files vault p,
       Forall (λ prop, PropertyDefinition.key prop ≠ "tags") propertiesToAdd →
       tags_of (AddPropertiesModal_handleSubmit propertiesToAdd files vault).1 p
       = tags_of vault p).
Proof.
  assert (Hdom : ∀ files0 vault0 k,
            k ∈ dom (loadExistingProperties files0 vault0).2 → k ≠ "tags").
  { intros files0 vault0 k Hk ->. apply elem_of_dom in Hk as [prop Hprop].
    by rewrite loadExistingProperties_no_tags in Hprop. }
  split; [apply loadExistingProperties_no_tags |].
  split; [| split; [| split]].
  - intros files0 vault0 selected files vault p Hsub.
    unfold RemovePropertiesModal_handleSubmit.
    destruct (size selected =? 0)%nat; [done |]. unfold bind, ret.
    rewrite <- (RemovePropertiesModal_loop_tags files (elements selected)
                  vault p).
    + by destruct (RemovePropertiesModal_loop files _ vault).
    + apply Forall_forall. intros k Hk. apply elem_of_elements in Hk.
      apply (Hdom files0 vault0). by apply Hsub.
  - intros files0 vault0 edits flag files vault p Hkeys.
    unfold EditValuesModal_handleSubmit.
    destruct (length _ =? 0)%nat; [done |]. unfold bind, ret.
    rewrite <- (EditValuesModal_loop_tags files
                  (List.filter PropertyValueEdit.enabled edits) flag vault p).
    + by destruct (EditValuesModal_loop files _ flag vault) as [v' [u a]].
    + apply Forall_forall. intros e He.
      apply list_elem_of_In, filter_In in He as [He _].
      apply list_elem_of_In in He. rewrite Forall_forall in Hkeys.
      by apply (Hdom files0 vault0), Hkeys.
  - intros files0 vault0 renames flag files vault p Hkeys.
    unfold RenamePropertiesModal_handleSubmit.
    destruct (length _ =? 0)%nat; [done |]. unfold bind, ret.
    rewrite <- (RenamePropertiesModal_loop_tags files
                  (RenamePropertiesModal_enabledRenames renames) flag vault p).
    + by destruct (RenamePropertiesModal_loop files _ flag vault)
        as [v' [r a]].
    + apply Forall_forall. intros r Hr.
      apply enabledRenames_elem in Hr as [Hr _].
      rewrite Forall_forall in Hkeys. destruct (Hkeys _ Hr) as [Hold Hnew].
      split; [by apply (Hdom files0 vault0) | done].
  - intros props files vault p Hkeys.
    unfold AddPropertiesModal_handleSubmit.
    destruct (length _ =? 0)%nat; [done |]. unfold bind, ret.
    rewrite <- (AddPropertiesModal_loop_tags files
                  (List.filter (λ q, nonempty (PropertyDefinition.key q)) props)
                  vault p).
    + by destruct (AddPropertiesModal_loop files _ vault).
    + apply Forall_forall. intros q Hq.
      apply list_elem_of_In, filter_In in Hq as [Hq _].
      apply list_elem_of_In in Hq. rewrite Forall_forall in Hkeys.
      by apply Hkeys.
Qed.

Lemma tags_reserved_in_aggregation_witness :
  ({[ "status" ]} : gset string)
    ⊆ dom (loadExistingProperties [a_md] tagged_vault).2
  ∧ tags_of
      (RemovePropertiesModal_handleSubmit {[ "status" ]} [a_md] tagged_vault).1
      "a.md"
    = tags_of tagged_vault "a.md".
Proof.
  assert (Hsub : ({[ "status" ]} : gset string)
                   ⊆ dom (loadExistingProperties [a_md] tagged_vault).2).
  { intros k Hk. apply elem_of_singleton in Hk as ->.
    apply elem_of_dom. eexists. reflexivity. }
  split; [exact Hsub |].
  exact (proj1 (proj2 tags_reserved_in_aggregation) [a_md] tagged_vault
           {[ "status" ]} [a_md] tagged_vault "a.md" Hsub).
Defined.

(** * Further properties of the mutation engine *)

(** ** removePropertiesFromFile *)

Lemma removeProperties_step_eq (frontmatter : Frontmatter) (removed : nat)
    (key : string) :
  removeProperties_step (frontmatter, removed) key
  = if has_key key frontmatter
    then (delete key frontmatter, S removed)
    else (frontmatter, removed).
Proof. reflexivity. Qed.

Lemma removeProperties_fold (keys : list string) :
  ∀ (frontmatter : Frontmatter) (removed : nat),
    let r := foldl removeProperties_step (frontmatter, removed) keys in
    (∀ k, k ∈ keys → r.1 !! k = None)
    ∧ (∀ k, k ∉ keys → r.1 !! k = frontmatter !! k)
    ∧ (∀ k, frontmatter !! k = None → r.1 !! k = None)
    ∧ (size frontmatter + removed ≤ size r.1 + r.2)%nat
    ∧ (r.2 ≤ removed + length keys)%nat
    ∧ (Forall (λ k, inherited k = false) keys →
       (size frontmatter + removed = size r.1 + r.2)%nat).
Proof.
  induction keys as [|key keys IH]; intros fm n; cbn [foldl].
  - cbn. split; [intros k Hk; by apply elem_of_nil in Hk |].
    split; [done |]. split; [done |]. split; [lia |]. split; [lia |]. lia.
  - rewrite removeProperties_step_eq.
    destruct (has_key key fm) eqn:Hin.
    + destruct (IH (delete key fm) (S n))
        as (Hgone & Hkeep & Hnone & Hle & Hcount & Hsize).
      assert (size fm ≤ S (size (delete key fm)))%nat as Hdel.
      { rewrite map_size_delete. destruct (fm !! key); cbn; lia. }
      split; [| split; [| split; [| split; [| split]]]].
      * intros k [-> | Hk]%elem_of_cons; [| by apply Hgone].
        apply Hnone, lookup_delete_eq.
      * intros k [Hne Hk]%not_elem_of_cons.
        rewrite Hkeep by done. by rewrite lookup_delete_ne.
      * intros k Hk. apply Hnone. rewrite lookup_delete_None. by right.
      * lia.
      * cbn [length]. lia.
      * intros [Hkey Hkeys]%Forall_cons. specialize (Hsize Hkeys).
        apply has_key_true in Hin as [[x Hx] | Hin]; [| congruence].
        rewrite map_size_delete, Hx in Hsize.
        assert (size fm ≠ 0%nat).
        { intros Hz. apply map_size_empty_inv in Hz. subst fm.
          by rewrite lookup_empty in Hx. }
        cbn in Hsize. lia.
    + apply has_key_false in Hin as [Hin _].
      destruct (IH fm n) as (Hgone & Hkeep & Hnone & Hle & Hcount & Hsize).
      split; [| split; [| split; [| split; [| split]]]];
        [| | done | done | cbn [length]; lia |].
      * intros k [-> | Hk]%elem_of_cons; [by apply Hnone | by apply Hgone].
      * intros k [Hne Hk]%not_elem_of_cons. by apply Hkeep.
      * intros [_ Hkeys]%Forall_cons. by apply Hsize.
Qed.

(** On a block without any of the listed keys the loop deletes nothing
    and counts the listed names that the block inherits. *)
Lemma removeProperties_fn_absent (keys : list string) (frontmatter : Frontmatter) :
  (∀ k, k ∈ keys → frontmatter !! k = None) →
  removeProperties_fn keys frontmatter
  = (frontmatter, length (List.filter inherited keys)).
Proof.
  intros H. unfold removeProperties_fn.
  enough (∀ n, foldl removeProperties_step (frontmatter, n) keys
               = (frontmatter, (n + length (List.filter inherited keys))%nat))
    as Hn by apply (Hn 0%nat).
  induction keys as [|key keys IH]; intros n; [cbn; f_equal; lia |].
  cbn [foldl List.filter]. rewrite removeProperties_step_eq.
  assert (frontmatter !! key = None) as Hkey by (apply H; by left).
  assert (∀ k, k ∈ keys → frontmatter !! k = None) as Hkeys
    by (intros k Hk; apply H; by right).
  unfold has_key. rewrite bool_decide_eq_false_2
    by (rewrite Hkey; by intros [? ?]).
  cbn [orb]. destruct (inherited key).
  - rewrite delete_id by done. rewrite (IH Hkeys). cbn [length]. f_equal. lia.
  - apply (IH Hkeys).
Qed.

Lemma filter_inherited_ordinary (keys : list string) :
  Forall (λ k, inherited k = false) keys → List.filter inherited keys = [].
Proof.
  induction 1 as [|k keys Hk _ IH]; [done |].
  cbn [List.filter]. by rewrite Hk.
Qed.

(** X1: on a document that can be opened, [removePropertiesFromFile]
    leaves no listed key in the block and keeps every other entry.  The
    number it returns is at least the number of entries the block lost and
    at most the number of listed keys, and it is exactly the number of
    entries lost when no listed key is a name of [Object.prototype] (the
    [in] test counts such a name whether or not the block has it). *)
Theorem removePropertiesFromFile_effect (vault : Vault) (file : TFile)
    (block : Frontmatter) (keys : list string) :
  vault !! path file = Some block →
  ∃ block' removed,
    removePropertiesFromFile file keys vault
    = (<[path file := block']> vault, removed)
    ∧ (∀ k, k ∈ keys → block' !! k = None)
    ∧ (∀ k, k ∉ keys → block' !! k = block !! k)
    ∧ (size block' ≤ size block)%nat
    ∧ (size block - size block' ≤ removed)%nat
    ∧ (removed ≤ length keys)%nat
    ∧ (Forall (λ k, inherited k = false) keys →
       removed = (size block - size block')%nat).
Proof.
  intros Hv. unfold removePropertiesFromFile.
  rewrite (try_processFrontMatter_open _ _ _ _ _ Hv).
  destruct (removeProperties_fold keys block 0)
    as (Hgone & Hkeep & _ & Hle & Hcount & Hsize).
  fold (removeProperties_fn keys block) in Hgone, Hkeep, Hle, Hcount, Hsize.
  exists (removeProperties_fn keys block).1, (removeProperties_fn keys block).2.
  split; [done |]. split; [done |]. split; [done |].
  assert (size (removeProperties_fn keys block).1 ≤ size block)%nat as Hsub.
  { apply map_subseteq_size, map_subseteq_spec. intros k x Hk.
    destruct (decide (k ∈ keys)) as [Hin | Hout].
    - by rewrite Hgone in Hk.
    - by rewrite <- Hkeep. }
  split; [done |]. split; [lia |]. split; [lia |].
  intros Hord. specialize (Hsize Hord). lia.
Qed.

Lemma removePropertiesFromFile_effect_witness :
  one_doc_vault !! path a_md = Some draft_block
  ∧ Forall (λ k, inherited k = false) ["priority"; "status"]
  ∧ ∃ block' removed,
      removePropertiesFromFile a_md ["priority"; "status"] one_doc_vault
      = (<[path a_md := block']> one_doc_vault, removed)
      ∧ (∀ k, k ∈ ["priority"; "status"] → block' !! k = None)
      ∧ (∀ k, k ∉ ["priority"; "status"] → block' !! k = draft_block !! k)
      ∧ removed = (size draft_block - size block')%nat.
Proof.
  assert (Hord : Forall (λ k, inherited k = false) ["priority"; "status"])
    by (by repeat constructor).
  split; [reflexivity |]. split; [exact Hord |].
  destruct (removePropertiesFromFile_effect one_doc_vault a_md draft_block
              ["priority"; "status"] eq_refl)
    as (block' & removed & Hrun & Hgone & Hkeep & _ & _ & _ & Hexact).
  exists block', removed. split; [exact Hrun |]. split; [exact Hgone |].
  split; [exact Hkeep | exact (Hexact Hord)].
Defined.

(** X2: removing the same keys a second time deletes nothing: the second
    call leaves the vault as the first call left it.  It returns the
    number of listed names of [Object.prototype], which the [in] test
    counts at every call, and so 0 when no listed key is such a name. *)
Theorem removePropertiesFromFile_idempotent (vault : Vault) (file : TFile)
    (block : Frontmatter) (keys : list string) :
  vault !! path file = Some block →
  let first := removePropertiesFromFile file keys vault in
  removePropertiesFromFile file keys first.1
  = (first.1, length (List.filter inherited keys))
  ∧ (Forall (λ k, inherited k = false) keys →
     removePropertiesFromFile file keys first.1 = (first.1, 0%nat)).
Proof.
  intros Hv. cbn zeta.
  assert (removePropertiesFromFile file keys
            (removePropertiesFromFile file keys vault).1
          = ((removePropertiesFromFile file keys vault).1,
             length (List.filter inherited keys))) as Hsecond.
  { unfold removePropertiesFromFile.
    rewrite (try_processFrontMatter_open _ _ _ _ _ Hv). cbn [fst].
    erewrite try_processFrontMatter_open by apply lookup_insert_eq.
    destruct (removeProperties_fold keys block 0) as (Hgone & _).
    fold (removeProperties_fn keys block) in Hgone.
    rewrite removeProperties_fn_absent by done. cbn [fst snd].
    by rewrite insert_insert_eq. }
  split; [exact Hsecond |]. intros Hord. rewrite Hsecond.
  by rewrite filter_inherited_ordinary.
Qed.

Lemma removePropertiesFromFile_idempotent_witness :
  one_doc_vault !! path a_md = Some draft_block
  ∧ Forall (λ k, inherited k = false) ["priority"; "status"]
  ∧ removePropertiesFromFile a_md ["priority"; "status"]
      (removePropertiesFromFile a_md ["priority"; "status"] one_doc_vault).1
    = ((removePropertiesFromFile a_md ["priority"; "status"] one_doc_vault).1,
       0%nat)
  ∧ removePropertiesFromFile a_md ["toString"; "status"]
      (removePropertiesFromFile a_md ["toString"; "status"] one_doc_vault).1
    = ((removePropertiesFromFile a_md ["toString"; "status"] one_doc_vault).1,
       1%nat).
Proof.
  assert (Hv : one_doc_vault !! path a_md = Some draft_block) by reflexivity.
  assert (Hord : Forall (λ k, inherited k = false) ["priority"; "status"])
    by (by repeat constructor).
  split; [exact Hv |]. split; [exact Hord |]. split.
  - exact (proj2 (removePropertiesFromFile_idempotent one_doc_vault a_md
                    draft_block ["priority"; "status"] Hv) Hord).
  - exact (proj1 (removePropertiesFromFile_idempotent one_doc_vault a_md
                    draft_block ["toString"; "status"] Hv)).
Defined.

(** ** renamePropertyKey *)





(** X5: renaming onto a key that already exists overwrites it: the block
    loses one entry, and the value that was under the new key is
    replaced by the old key's value. *)
Theorem renamePropertyKey_collision (vault : Vault) (file : TFile)
    (block : Frontmatter) (oldKey newKey : string) (x y : JsValue) :
  vault !! path file = Some block →
  oldKey ≠ newKey →
  block !! oldKey = Some x →
  block !! newKey = Some y →
  ∃ block',
    renamePropertyKey file oldKey newKey vault
    = (<[path file := block']> vault, true)
    ∧ block' !! newKey = Some x
    ∧ S (size block') = size block.
Proof.
  intros Hv Hne Hold Hnew.
  rewrite (renamePropertyKey_open _ _ _ _ _ Hv), (get_own _ _ _ Hold).
  rewrite assign_insert by (right; by eexists).
  eexists. split; [done |].
  split; [rewrite lookup_delete_ne by done; apply lookup_insert_eq |].
  rewrite map_size_delete, lookup_insert_ne, Hold by done.
  rewrite map_size_insert_Some by (by eexists). cbn.
  assert (size block ≠ 0%nat); [| lia].
  intros Hz. apply map_size_empty_inv in Hz. subst block.
  by rewrite lookup_empty in Hold.
Qed.

Lemma renamePropertyKey_collision_witness :
  let block : Frontmatter :=
    {[ "status" := JString "draft"; "priority" := JString "low" ]} in
  two_doc_vault !! path a_md = Some block
  ∧ "status" ≠ "priority"
  ∧ block !! "status" = Some (JString "draft")
  ∧ block !! "priority" = Some (JString "low")
  ∧ ∃ block',
      renamePropertyKey a_md "status" "priority" two_doc_vault
      = (<[path a_md := block']> two_doc_vault, true)
      ∧ block' !! "priority" = Some (JString "draft")
      ∧ S (size block') = size block.
Proof.
  cbn zeta.
  split; [reflexivity |]. split; [discriminate |].
  split; [reflexivity |]. split; [reflexivity |].
  by apply (renamePropertyKey_collision two_doc_vault a_md _ "status"
              "priority" (JString "draft") (JString "low")).
Defined.

(** ** updatePropertyValue *)

(** X6: [updatePropertyValue] is idempotent: a second call with the same
    arguments leaves the vault as the first call left it, and reports
    ['updated'] unless the first call did nothing. *)
Theorem updatePropertyValue_idempotent (vault : Vault) (file : TFile)
    (k : string) (v : JsValue) (addIfMissing : bool) :
  let first := updatePropertyValue file k v addIfMissing vault in
  updatePropertyValue file k v addIfMissing first.1
  = (first.1,
     match first.2 with
     | UpdateResult.none => UpdateResult.none
     | _ => UpdateResult.updated
     end).
Proof.
  cbn zeta. destruct (vault !! path file) as [block|] eqn:Hv.
  - rewrite (updatePropertyValue_open _ _ _ _ _ _ Hv).
    destruct (has_key k block) eqn:Hk; [| destruct addIfMissing];
      cbn [fst snd].
    + erewrite updatePropertyValue_open by apply lookup_insert_eq.
      rewrite has_key_assign_eq, assign_assign. by rewrite insert_insert_eq.
    + erewrite updatePropertyValue_open by apply lookup_insert_eq.
      rewrite has_key_own by (rewrite lookup_insert_eq; by eexists).
      rewrite assign_insert by (right; rewrite lookup_insert_eq; by eexists).
      by rewrite !insert_insert_eq.
    + by rewrite (updatePropertyValue_open _ _ _ _ _ _ Hv), Hk.
  - unfold updatePropertyValue.
    rewrite (try_processFrontMatter_rejected _ _ _ _ Hv). cbn [fst snd].
    by rewrite (try_processFrontMatter_rejected _ _ _ _ Hv).
Qed.

(** ** Failures and confinement *)

(** X7: when the document cannot be opened, every operation absorbs the
    failure: the vault is unchanged and the caller gets the neutral result
    (0 added, 0 removed, not renamed, ['none'], no properties). *)
Theorem operations_absorb_failure (vault : Vault) (file : TFile) :
  vault !! path file = None →
  (∀ properties, addPropertiesToFile file properties vault = (vault, 0%nat))
  ∧ (∀ keys, removePropertiesFromFile file keys vault = (vault, 0%nat))
  ∧ (∀ oldKey newKey,
       renamePropertyKey file oldKey newKey vault = (vault, false))
  ∧ (∀ k v addIfMissing,
       updatePropertyValue file k v addIfMissing vault
       = (vault, UpdateResult.none))
  ∧ getPropertiesFromFile file vault = (vault, ∅).
Proof.
  intros Hv. repeat split; intros;
    by apply try_processFrontMatter_rejected.
Qed.

Lemma operations_absorb_failure_witness :
  one_doc_vault !! path b_md = None
  ∧ addPropertiesToFile b_md add_tags one_doc_vault = (one_doc_vault, 0%nat)
  ∧ renamePropertyKey b_md "status" "state" one_doc_vault
    = (one_doc_vault, false).
Proof.
  assert (Hv : one_doc_vault !! path b_md = None) by reflexivity.
  pose proof (operations_absorb_failure one_doc_vault b_md Hv)
    as (Hadd & _ & Hren & _).
  split; [exact Hv |]. split; [apply Hadd | apply Hren].
Defined.

Lemma try_processFrontMatter_confined {A} (file : TFile) (init : A)
    (fn : Frontmatter → Frontmatter * A) (v : Vault) :
  dom (try_processFrontMatter file init fn v).1 = dom v
  ∧ ∀ p, p ≠ path file →
         (try_processFrontMatter file init fn v).1 !! p = v !! p.
Proof.
  destruct (v !! path file) as [block|] eqn:Hv.
  - rewrite (try_processFrontMatter_open _ _ _ _ _ Hv). cbn [fst]. split.
    + rewrite dom_insert_L.
      assert (path file ∈ dom v) as Hin by (apply elem_of_dom; by eexists).
      apply set_eq. intros p. rewrite elem_of_union, elem_of_singleton.
      split; [intros [-> | ?]; done | by right].
    + intros p Hp. by rewrite lookup_insert_ne.
  - by rewrite (try_processFrontMatter_rejected _ _ _ _ Hv).
Qed.

(** X8: an operation on one document never creates or deletes a document
    and never changes the block of another document. *)
Theorem operations_confined_to_file (vault : Vault) (file : TFile) :
  (∀ properties,
     let r := addPropertiesToFile file properties vault in
     dom r.1 = dom vault ∧ ∀ p, p ≠ path file → r.1 !! p = vault !! p)
  ∧ (∀ keys,
       let r := removePropertiesFromFile file keys vault in
       dom r.1 = dom vault ∧ ∀ p, p ≠ path file → r.1 !! p = vault !! p)
  ∧ (∀ oldKey newKey,
       let r := renamePropertyKey file oldKey newKey vault in
       dom r.1 = dom vault ∧ ∀ p, p ≠ path file → r.1 !! p = vault !! p)
  ∧ (∀ k v addIfMissing,
       let r := updatePropertyValue file k v addIfMissing vault in
       dom r.1 = dom vault ∧ ∀ p, p ≠ path file → r.1 !! p = vault !! p).
Proof.
  repeat split; intros; by apply try_processFrontMatter_confined.
Qed.

Lemma operations_confined_to_file_witness :
  "b.md" ≠ path a_md
  ∧ (renamePropertyKey a_md "status" "state" two_doc_vault).1 !! "b.md"
    = two_doc_vault !! "b.md".
Proof.
  assert (Hp : "b.md" ≠ path a_md) by discriminate.
  split; [exact Hp |].
  pose proof (operations_confined_to_file two_doc_vault a_md)
    as (_ & _ & Hren & _).
  exact (proj2 (Hren "status" "state") "b.md" Hp).
Defined.

(** ** addPropertiesToFile, after the call *)

Lemma addProperties_fold_present (properties : list PropertyDefinition.t) :
  ∀ (frontmatter : Frontmatter) (added : nat),
    let r := foldl addProperties_step (frontmatter, added) properties in
    (∀ prop, prop ∈ properties → PropertyDefinition.key prop ≠ EmptyString →
             inherited (PropertyDefinition.key prop) = false →
             is_Some (r.1 !! PropertyDefinition.key prop))
    ∧ (∀ k x, r.1 !! k = Some x →
              frontmatter !! k = Some x
              ∨ ∃ prop, prop ∈ properties
                        ∧ PropertyDefinition.key prop = k
                        ∧ PropertyDefinition.value prop = x)
    ∧ (∀ k, inherited k = true → r.1 !! k = frontmatter !! k).
Proof.
  induction properties as [|prop props IH]; intros fm n; cbn [foldl].
  - cbn. split; [intros p Hp; by apply elem_of_nil in Hp |].
    split; [by left | done].
  - pose proof (addProperties_fold props) as Hkeep.
    rewrite addProperties_step_eq.
    destruct (nonempty (PropertyDefinition.key prop)) eqn:Hkey; cbn [negb].
    + destruct (has_key (PropertyDefinition.key prop) fm) eqn:Hin; cbn [negb].
      * destruct (IH fm n) as (Hpres & Hfrom & Hinh).
        split; [| split; [| done]].
        -- intros q [-> | Hq]%elem_of_cons Hne Hord; [| by apply Hpres].
           apply has_key_true in Hin as [[x Hx] | Hin]; [| congruence].
           exists x. by apply (proj1 (Hkeep fm n)).
        -- intros k y Hy. destruct (Hfrom k y Hy) as [? | (q & ? & ? & ?)];
             [by left |]. right. exists q. split; [by right | done].
      * apply has_key_false in Hin as [Hown Hord].
        destruct (IH (<[PropertyDefinition.key prop
                        := PropertyDefinition.value prop]> fm) (S n))
          as (Hpres & Hfrom & Hinh). split; [| split].
        -- intros q [-> | Hq]%elem_of_cons Hne Hq'; [| by apply Hpres].
           eexists. apply (proj1 (Hkeep _ (S n))). apply lookup_insert_eq.
        -- intros k y Hy. destruct (Hfrom k y Hy) as [Hins | (q & ? & ? & ?)].
           ++ apply lookup_insert_Some in Hins as [[<- <-] | [? ?]];
                [| by left]. right. exists prop. split; [by left | done].
           ++ right. exists q. split; [by right | done].
        -- intros k Hk. rewrite Hinh by done. rewrite lookup_insert_ne; [done |].
           intros <-. congruence.
    + destruct (IH fm n) as (Hpres & Hfrom & Hinh).
      split; [| split; [| done]].
      * intros q [-> | Hq]%elem_of_cons Hne Hord; [| by apply Hpres].
        apply nonempty_true in Hne. congruence.
      * intros k y Hy. destruct (Hfrom k y Hy) as [? | (q & ? & ? & ?)];
          [by left |]. right. exists q. split; [by right | done].
Qed.

(** X9: after [addPropertiesToFile] on a document that can be opened, the
    block has every listed property whose key is not empty and is not a
    name of [Object.prototype]; under such a name ([constructor],
    [toString], ...) the [in] test finds the inherited member and nothing
    is ever added.  Every entry of the block is either an entry it had
    before or the key and value of a listed property. *)
Theorem addPropertiesToFile_postcondition (vault : Vault) (file : TFile)
    (block : Frontmatter) (properties : list PropertyDefinition.t) :
  vault !! path file = Some block →
  ∃ block',
    (addPropertiesToFile file properties vault).1 !! path file = Some block'
    ∧ (∀ prop, prop ∈ properties →
               PropertyDefinition.key prop ≠ EmptyString →
               inherited (PropertyDefinition.key prop) = false →
               is_Some (block' !! PropertyDefinition.key prop))
    ∧ (∀ k x, block' !! k = Some x →
              block !! k = Some x
              ∨ ∃ prop, prop ∈ properties
                        ∧ PropertyDefinition.key prop = k
                        ∧ PropertyDefinition.value prop = x)
    ∧ (∀ k, inherited k = true → block' !! k = block !! k).
Proof.
  intros Hv. unfold addPropertiesToFile.
  rewrite (try_processFrontMatter_open _ _ _ _ _ Hv). cbn [fst].
  exists (addProperties_fn properties block).1.
  rewrite lookup_insert_eq. split; [done |].
  apply (addProperties_fold_present properties block 0).
Qed.

Lemma addPropertiesToFile_postcondition_witness :
  one_doc_vault !! path a_md = Some draft_block
  ∧ ∃ block',
      (addPropertiesToFile a_md add_tags_and_constructor one_doc_vault).1
        !! path a_md
      = Some block'
      ∧ is_Some (block' !! "tags")
      ∧ block' !! "constructor" = None.
Proof.
  split; [reflexivity |].
  destruct (addPropertiesToFile_postcondition one_doc_vault a_md draft_block
              add_tags_and_constructor eq_refl)
    as (block' & Hlook & Hpres & _ & Hinh).
  exists block'. split; [exact Hlook |]. split.
  - apply (Hpres (PropertyDefinition.mk "tags" (JString "project") text));
      [apply list_elem_of_here | discriminate | reflexivity].
  - exact (Hinh "constructor" eq_refl).
Defined.

(** * Further properties of the value model and the aggregation *)

(** X11: the default value of every type passes [isPropertyValue], and
    [detectValueType] gives the type back for every type except [date],
    whose default (the empty string) is detected as [text]. *)
Theorem getDefaultValueForType_detected (type : PropertyValueType) :
  isPropertyValue (getDefaultValueForType type) = true
  ∧ detectValueType (getDefaultValueForType type)
    = match type with date => text | _ => type end.
Proof. by destruct type. Qed.

(** ** loadExistingProperties *)

Lemma getPropertiesFromFile_vault (file : TFile) (vault : Vault) :
  (getPropertiesFromFile file vault).1 = vault.
Proof.
  unfold getPropertiesFromFile.
  destruct (vault !! path file) as [block|] eqn:Hv.
  - rewrite (try_processFrontMatter_open _ _ _ _ _ Hv). cbn [fst].
    by apply insert_id.
  - by rewrite (try_processFrontMatter_rejected _ _ _ _ Hv).
Qed.

Lemma getPropertiesFromFile_lookup (file : TFile) (vault : Vault)
    (k : string) (x : JsValue) :
  (getPropertiesFromFile file vault).2 !! k = Some x ↔
  ∃ block, vault !! path file = Some block
           ∧ block !! k = Some x ∧ isPropertyValue x = true
           ∧ k ≠ "__proto__".
Proof.
  unfold getPropertiesFromFile.
  destruct (vault !! path file) as [block|] eqn:Hv.
  - rewrite (try_processFrontMatter_open _ _ _ _ _ Hv). cbn [snd].
    rewrite getProperties_fn_filter, map_lookup_filter_Some. cbn [fst snd].
    split; [intros (? & ? & ?); by exists block
           | by intros (? & [= <-] & ? & ? & ?)].
  - rewrite (try_processFrontMatter_rejected _ _ _ _ Hv). cbn [snd].
    rewrite lookup_empty. split; [done | by intros (? & ? & _)].
Qed.

(** X10: [getPropertiesFromFile] only reads: the vault is unchanged, and
    the object it returns holds exactly the entries of the block whose
    value passes [isPropertyValue], except an entry under the key
    [__proto__], which the copy [properties[key] = value] loses. *)
Theorem getPropertiesFromFile_reads_guarded (vault : Vault) (file : TFile)
    (block : Frontmatter) :
  vault !! path file = Some block →
  (getPropertiesFromFile file vault).1 = vault
  ∧ ∀ k x,
      (getPropertiesFromFile file vault).2 !! k = Some x ↔
      block !! k = Some x ∧ isPropertyValue x = true ∧ k ≠ "__proto__".
Proof.
  intros Hv. split; [apply getPropertiesFromFile_vault |].
  intros k x. rewrite getPropertiesFromFile_lookup. rewrite Hv.
  split; [by intros (? & [= <-] & ?) | intros ?; by exists block].
Qed.

Lemma getPropertiesFromFile_reads_guarded_witness :
  proto_vault !! path a_md
  = Some {[ "__proto__" := JString "x"; "status" := JString "draft" ]}
  ∧ (getPropertiesFromFile a_md proto_vault).1 = proto_vault
  ∧ (getPropertiesFromFile a_md proto_vault).2 !! "status"
    = Some (JString "draft")
  ∧ (getPropertiesFromFile a_md proto_vault).2 !! "__proto__" = None.
Proof.
  split; [reflexivity |].
  destruct (getPropertiesFromFile_reads_guarded proto_vault a_md _ eq_refl)
    as [Hread Hcopy].
  split; [exact Hread |]. split; [by apply Hcopy |].
  destruct ((getPropertiesFromFile a_md proto_vault).2 !! "__proto__")
    as [x|] eqn:Hx; [| done].
  by apply Hcopy in Hx as (_ & _ & ?).
Defined.

Lemma loadExisting_entry_lookup (key : string) (value : JsValue)
    (existing : gmap string ExistingProperty.t) (k : string) :
  loadExisting_entry key value existing !! k
  = if decide (k = key ∧ key ≠ "tags")
    then Some (aggregate_value key value (existing !! key))
    else existing !! k.
Proof.
  unfold loadExisting_entry, aggregate_value.
  destruct (bool_decide (key = "tags")) eqn:Htags.
  - apply bool_decide_eq_true in Htags.
    by rewrite decide_False by (intros [_ ?]; done).
  - apply bool_decide_eq_false in Htags.
    destruct (decide (k = key)) as [-> | Hne].
    + rewrite decide_True by done. rewrite lookup_alter_eq.
      destruct (bool_decide (is_Some (existing !! key))) eqn:Hhas.
      * apply bool_decide_eq_true in Hhas as [old Hold]. by rewrite Hold.
      * apply bool_decide_eq_false in Hhas.
        apply eq_None_not_Some in Hhas. by rewrite lookup_insert_eq, Hhas.
    + rewrite decide_False by (intros [? _]; done).
      rewrite lookup_alter_ne by done.
      destruct (bool_decide (is_Some (existing !! key))); [done |].
      by rewrite lookup_insert_ne.
Qed.

(** One document's contribution: every guarded entry other than [tags]
    updates the record of its key, and no other record changes. *)
Lemma loadExisting_file_lookup (props : Frontmatter)
    (existing : gmap string ExistingProperty.t) (k : string) :
  map_fold loadExisting_entry existing props !! k
  = match props !! k with
    | Some x =>
        if decide (k = "tags") then existing !! k
        else Some (aggregate_value k x (existing !! k))
    | None => existing !! k
    end.
Proof.
  apply (map_fold_weak_ind
           (λ r m,
              r !! k
              = match m !! k with
                | Some x =>
                    if decide (k = "tags") then existing !! k
                    else Some (aggregate_value k x (existing !! k))
                | None => existing !! k
                end)); [done |].
  intros i x m r Hi IH. rewrite loadExisting_entry_lookup.
  destruct (decide (k = i)) as [-> | Hne].
  - rewrite lookup_insert_eq. rewrite Hi in IH.
    destruct (decide (i = "tags")) as [-> | Htags].
    + by rewrite decide_False by (intros [_ ?]; done).
    + rewrite decide_True by done. by rewrite IH.
  - rewrite decide_False by (intros [? _]; done).
    by rewrite lookup_insert_ne.
Qed.

(** X12: the aggregation only reads: [loadExistingProperties] leaves the
    vault unchanged. *)
Theorem loadExistingProperties_read_only (files : list TFile) (vault : Vault) :
  (loadExistingProperties files vault).1 = vault.
Proof.
  unfold loadExistingProperties.
  apply (for_of_invariant
           (λ v (_ : gmap string ExistingProperty.t), v = vault)); [| done].
  intros file existing v _ ->. unfold bind, ret.
  pose proof (getPropertiesFromFile_vault file vault) as Hv.
  by destruct (getPropertiesFromFile file vault).
Qed.

(** The loop of [loadExistingProperties], from any starting map. *)
Lemma loadExisting_loop_keys (files : list TFile) (vault : Vault) :
  ∀ (existing : gmap string ExistingProperty.t) (k : string),
    is_Some
      ((for_of files
          (λ file existingProperties,
             props <- getPropertiesFromFile file ;;
             ret (map_fold loadExisting_entry existingProperties props))
          existing vault).2 !! k) ↔
    is_Some (existing !! k)
    ∨ (k ≠ "tags" ∧ k ≠ "__proto__"
       ∧ ∃ x, isPropertyValue x = true ∧ observed_in vault files k x).
Proof.
  induction files as [|file files IH]; intros existing k.
  - cbn. split; [by left |]. intros [? | (_ & _ & x & _ & f & b & Hf & _)];
      [done | by apply elem_of_nil in Hf].
  - rewrite for_of_cons. unfold bind at 2 3, ret at 2 3.
    pose proof (getPropertiesFromFile_vault file vault) as Hv.
    pose proof (getPropertiesFromFile_lookup file vault k) as Hlook.
    destruct (getPropertiesFromFile file vault) as [v' props].
    cbn [fst snd] in *. subst v'. rewrite IH, loadExisting_file_lookup.
    split.
    + intros [Hhere | (Hk & Hp' & x & Hx & f & b & Hf & Hb & Hbx)].
      * destruct (props !! k) as [x|] eqn:Hp; [| by left].
        destruct (decide (k = "tags")); [by left |]. right.
        split; [done |].
        destruct (proj1 (Hlook x) eq_refl) as (b & Hb & Hbx & Hx & Hproto).
        split; [done |].
        exists x. split; [done |]. exists file, b. split; [by left | done].
      * right. split; [done |]. split; [done |]. exists x. split; [done |].
        exists f, b. split; [by right | done].
    + intros [Hold | (Hk & Hp' & x & Hx & f & b & Hf & Hb & Hbx)].
      * left. destruct (props !! k); [| done].
        destruct (decide (k = "tags")); [done | by eexists].
      * apply elem_of_cons in Hf as [-> | Hf].
        -- left. assert (props !! k = Some x) as ->.
           { apply Hlook. by exists b. }
           rewrite decide_False by done. by eexists.
        -- right. split; [done |]. split; [done |]. exists x.
           split; [done |]. by exists f, b.
Qed.

(** X13: a key is aggregated exactly when it is neither [tags] nor
    [__proto__] and some document of the file list that can be opened
    stores, under that key, a value that passes [isPropertyValue].  (The
    copy that [getPropertiesFromFile] hands over has lost an entry under
    [__proto__].) *)
Theorem loadExistingProperties_keys (files : list TFile) (vault : Vault)
    (k : string) :
  k ∈ dom (loadExistingProperties files vault).2 ↔
  k ≠ "tags" ∧ k ≠ "__proto__"
  ∧ ∃ x, isPropertyValue x = true ∧ observed_in vault files k x.
Proof.
  rewrite elem_of_dom. unfold loadExistingProperties.
  rewrite loadExisting_loop_keys. rewrite lookup_empty.
  split; [intros [[? ?] | ?]; done | by right].
Qed.







(** * Further properties of the batch runs *)

(** What every iteration establishes for its own element, and no iteration
    destroys for any element, holds for all elements after the loop. *)
Lemma for_of_establishes {A S} (Q : A → Vault → Prop) (all : list A)
    (body : A → S → Async S) :
  (∀ x s v, x ∈ all → Q x (body x s v).1) →
  (∀ x y s v, x ∈ all → y ∈ all → Q y v → Q y (body x s v).1) →
  ∀ xs, xs ⊆ all →
    ∀ s v,
      (∀ y, y ∈ all → Q y v → Q y (for_of xs body s v).1)
      ∧ (∀ x, x ∈ xs → Q x (for_of xs body s v).1).
Proof.
  intros Hest Hstable. induction xs as [|x xs IH]; intros Hsub s v.
  - split; [done | by intros x ?%elem_of_nil].
  - rewrite for_of_cons.
    assert (x ∈ all) as Hx by (apply Hsub; by left).
    assert (xs ⊆ all) as Hxs by (intros y Hy; apply Hsub; by right).
    destruct (IH Hxs (body x s v).2 (body x s v).1) as [Hkeep Hall].
    split.
    + intros y Hy Hq. apply Hkeep; [done |]. by apply Hstable.
    + intros y [-> | Hy]%elem_of_cons; [| by apply Hall].
      apply Hkeep; [done |]. by apply Hest.
Qed.

Lemma filter_length_zero {A} (f : A → bool) (l : list A) :
  (length (List.filter f l) =? 0)%nat = negb (existsb f l).
Proof.
  induction l as [|x l IH]; [done |]. cbn. by destruct (f x).
Qed.

Lemma existsb_filter {A} (f g : A → bool) (l : list A) :
  existsb g (List.filter f l) = existsb (λ x, f x && g x) l.
Proof.
  induction l as [|x l IH]; [done |]. cbn [List.filter existsb].
  destruct (f x); cbn [existsb andb]; by rewrite IH.
Qed.

Lemma existsb_and_false {A} (f g : A → bool) (l : list A) :
  existsb f l = false → existsb (λ x, f x && g x) l = false.
Proof.
  induction l as [|x l IH]; [done |]. cbn [existsb].
  intros [-> ?]%orb_false_iff. by rewrite IH.
Qed.

(** X15: each [handleSubmit] closes the modal exactly when its validation
    passes (some property has a key; some key is selected; some enabled
    row has a changed, non-empty name; some row is enabled; some enabled
    row updates the value or changes the name), and a submit that is
    stopped by the validation writes nothing. *)
Theorem handleSubmit_validation :
  (∀ propertiesToAdd files vault,
     let run := AddPropertiesModal_handleSubmit propertiesToAdd files vault in
     closed run.2
     = existsb (λ p, nonempty (PropertyDefinition.key p)) propertiesToAdd
     ∧ (closed run.2 = false → run.1 = vault))
  ∧ (∀ (selectedKeys : gset string) files vault,
       let run := RemovePropertiesModal_handleSubmit selectedKeys files vault in
       closed run.2 = negb (bool_decide (selectedKeys = ∅))
       ∧ (closed run.2 = false → run.1 = vault))
  ∧ (∀ propertyRenames addToFilesWithoutProperty files vault,
       let run :=
         RenamePropertiesModal_handleSubmit propertyRenames
           addToFilesWithoutProperty files vault in
       closed run.2
       = existsb
           (λ r, PropertyRename.enabled r
                 && string_neq (PropertyRename.originalKey r)
                      (PropertyRename.newKey r)
                 && nonempty (PropertyRename.newKey r))
           propertyRenames
       ∧ (closed run.2 = false → run.1 = vault))
  ∧ (∀ propertyEdits addToFilesWithoutProperty files vault,
       let run :=
         EditValuesModal_handleSubmit propertyEdits addToFilesWithoutProperty
           files vault in
       closed run.2 = existsb PropertyValueEdit.enabled propertyEdits
       ∧ (closed run.2 = false → run.1 = vault))
  ∧ (∀ propertyEdits addToFilesWithoutProperty files vault,
       let run :=
         EditPropertiesModal_handleSubmit propertyEdits
           addToFilesWithoutProperty files vault in
       closed run.2
       = existsb
           (λ e, PropertyEdit.enabled e
                 && (PropertyEdit.updateValue e
                     || (string_neq (PropertyEdit.originalKey e)
                           (PropertyEdit.newKey e)
                         && nonempty (PropertyEdit.newKey e))))
           propertyEdits
       ∧ (closed run.2 = false → run.1 = vault)).
Proof.
  split; [| split; [| split; [| split]]].
  - intros props files vault. cbn zeta.
    unfold AddPropertiesModal_handleSubmit. rewrite filter_length_zero.
    destruct (existsb _ props); cbn [negb]; [| done].
    unfold bind, ret. by destruct (AddPropertiesModal_loop files _ vault).
  - intros selected files vault. cbn zeta.
    unfold RemovePropertiesModal_handleSubmit.
    destruct (size selected =? 0)%nat eqn:Hsize.
    + apply Nat.eqb_eq, size_empty_iff in Hsize.
      apply leibniz_equiv in Hsize. subst selected. cbn [fst snd closed].
      by rewrite bool_decide_eq_true_2.
    + unfold bind, ret.
      destruct (RemovePropertiesModal_loop files _ vault). cbn [fst snd closed].
      rewrite bool_decide_eq_false_2; [done |]. intros ->.
      by rewrite size_empty in Hsize.
  - intros renames flag files vault. cbn zeta.
    unfold RenamePropertiesModal_handleSubmit,
      RenamePropertiesModal_enabledRenames.
    rewrite filter_length_zero.
    destruct (existsb _ renames); cbn [negb]; [| done].
    unfold bind, ret.
    by destruct (RenamePropertiesModal_loop files _ flag vault) as [? [? ?]].
  - intros edits flag files vault. cbn zeta.
    unfold EditValuesModal_handleSubmit. rewrite filter_length_zero.
    destruct (existsb _ edits); cbn [negb]; [| done].
    unfold bind, ret.
    by destruct (EditValuesModal_loop files _ flag vault) as [? [? ?]].
  - intros edits flag files vault. cbn zeta.
    unfold EditPropertiesModal_handleSubmit.
    rewrite filter_length_zero, existsb_filter.
    destruct (existsb PropertyEdit.enabled edits) eqn:Hen; cbn [negb];
      [clear Hen | by rewrite existsb_and_false].
    destruct (existsb _ edits); cbn [negb]; [| done].
    unfold bind, ret.
    by destruct (EditPropertiesModal_loop files _ flag vault).
Qed.

Lemma handleSubmit_validation_witness :
  closed
    (RenamePropertiesModal_handleSubmit
       [PropertyRename.mk "status" "status" true] true [a_md] one_doc_vault).2
  = false
  ∧ (RenamePropertiesModal_handleSubmit
       [PropertyRename.mk "status" "status" true] true [a_md] one_doc_vault).1
    = one_doc_vault.
Proof.
  pose proof (proj1 (proj2 (proj2 handleSubmit_validation))
                [PropertyRename.mk "status" "status" true] true [a_md]
                one_doc_vault) as [Hclosed Hvault].
  assert (Hc : closed
                 (RenamePropertiesModal_handleSubmit
                    [PropertyRename.mk "status" "status" true] true [a_md]
                    one_doc_vault).2 = false) by reflexivity.
  split; [exact Hc | exact (Hvault Hc)].
Defined.

(** ** The add run *)

Lemma AddPropertiesModal_loop_vault (files : list TFile)
    (validProps : list PropertyDefinition.t) (vault : Vault) :
  (∀ file block',
     file ∈ files →
     (AddPropertiesModal_loop files validProps vault).1 !! path file
     = Some block' →
     ∀ prop, prop ∈ validProps →
             PropertyDefinition.key prop ≠ EmptyString →
             inherited (PropertyDefinition.key prop) = false →
             is_Some (block' !! PropertyDefinition.key prop))
  ∧ (∀ p block,
       vault !! p = Some block →
       ∃ block',
         (AddPropertiesModal_loop files validProps vault).1 !! p = Some block'
         ∧ ∀ k x, block !! k = Some x → block' !! k = Some x)
  ∧ (∀ p k,
       inherited k = true →
       entry_of (AddPropertiesModal_loop files validProps vault).1 p k
       = entry_of vault p k).
Proof.
  unfold AddPropertiesModal_loop.
  set (body := λ (file : TFile) (successCount : nat),
         result <- addPropertiesToFile file validProps ;;
         ret (if (0 <? result)%nat then S successCount else successCount)).
  assert (Hbody : ∀ file n v,
            (body file n v).1 = (addPropertiesToFile file validProps v).1).
  { intros file n v. unfold body, bind, ret.
    by destruct (addPropertiesToFile file validProps v). }
  split; [| split].
  - intros file block' Hfile.
    apply (for_of_establishes
             (λ file v,
                ∀ block', v !! path file = Some block' →
                  ∀ prop, prop ∈ validProps →
                          PropertyDefinition.key prop ≠ EmptyString →
                          inherited (PropertyDefinition.key prop) = false →
                          is_Some (block' !! PropertyDefinition.key prop))
             files body); [| | done | done].
    + intros x n v _ b Hb prop Hprop Hkey Hord. rewrite Hbody in Hb.
      unfold addPropertiesToFile in Hb.
      rewrite try_processFrontMatter_lookup, decide_True in Hb by done.
      destruct (v !! path x) as [bx|]; [| done]. injection Hb as <-.
      by apply (addProperties_fold_present validProps bx 0).
    + intros x y n v _ _ Hq b Hb prop Hprop Hkey Hord. rewrite Hbody in Hb.
      unfold addPropertiesToFile in Hb.
      rewrite try_processFrontMatter_lookup in Hb.
      destruct (decide (path y = path x)) as [Heq | Hne];
        [| by apply (Hq b)].
      destruct (v !! path y) as [by_|] eqn:Hy; [| done]. injection Hb as <-.
      destruct (Hq by_ eq_refl prop Hprop Hkey Hord) as [z Hz]. exists z.
      by apply (addProperties_fold validProps by_ 0).
  - intros p block Hp.
    apply (for_of_invariant
             (λ v (_ : nat),
                ∃ block', v !! p = Some block'
                          ∧ ∀ k x, block !! k = Some x → block' !! k = Some x));
      [| by exists block].
    intros x n v _ (b & Hb & Hkeep). rewrite Hbody.
    unfold addPropertiesToFile. rewrite try_processFrontMatter_lookup, Hb.
    destruct (decide (p = path x)); [| by exists b].
    eexists. split; [done |]. intros k z Hz.
    apply (addProperties_fold validProps b 0). by apply Hkeep.
  - intros p k Hk.
    apply (for_of_invariant
             (λ v (_ : nat), entry_of v p k = entry_of vault p k));
      [| done].
    intros x n v _ Hinv. rewrite Hbody, <- Hinv. unfold entry_of.
    unfold addPropertiesToFile. rewrite try_processFrontMatter_lookup.
    destruct (decide (p = path x)); [| done].
    destruct (v !! p) as [b|]; [| done]. cbn.
    by apply (addProperties_fold_present validProps b 0).
Qed.

(** X16: after an add run, every document of the file list that can be
    opened has every property the user gave a key that is not a name of
    [Object.prototype]; under such a name no document gains an entry.
    Every document of the vault still has all the entries it had, with
    their values. *)
Theorem AddPropertiesModal_postcondition
    (propertiesToAdd : list PropertyDefinition.t) (files : list TFile)
    (vault : Vault) :
  let run := AddPropertiesModal_handleSubmit propertiesToAdd files vault in
  closed run.2 = true →
  (∀ file block',
     file ∈ files → run.1 !! path file = Some block' →
     ∀ prop, prop ∈ propertiesToAdd →
             PropertyDefinition.key prop ≠ EmptyString →
             inherited (PropertyDefinition.key prop) = false →
             is_Some (block' !! PropertyDefinition.key prop))
  ∧ (∀ p block,
       vault !! p = Some block →
       ∃ block', run.1 !! p = Some block'
                 ∧ ∀ k x, block !! k = Some x → block' !! k = Some x)
  ∧ (∀ p k, inherited k = true → entry_of run.1 p k = entry_of vault p k).
Proof.
  cbn zeta. unfold AddPropertiesModal_handleSubmit.
  destruct (length _ =? 0)%nat; [discriminate |]. intros _.
  unfold bind, ret.
  pose proof (AddPropertiesModal_loop_vault files
                (List.filter (λ p, nonempty (PropertyDefinition.key p))
                   propertiesToAdd) vault) as (Hhas & Hkeep & Hinh).
  destruct (AddPropertiesModal_loop files _ vault) as [v' n].
  cbn [fst snd] in *. split; [| done].
  intros file block' Hfile Hb prop Hprop Hkey Hord.
  apply (Hhas file block' Hfile Hb prop); [| done | done].
  apply list_elem_of_In, filter_In. split; [by apply list_elem_of_In |].
  by apply nonempty_true.
Qed.

Lemma AddPropertiesModal_postcondition_witness :
  let run :=
    AddPropertiesModal_handleSubmit
      [PropertyDefinition.mk "priority" (JString "high") text;
       PropertyDefinition.mk "toString" (JString "x") text] [a_md; b_md]
      two_doc_vault in
  closed run.2 = true
  ∧ (∀ file block',
       file ∈ [a_md; b_md] → run.1 !! path file = Some block' →
       is_Some (block' !! "priority"))
  ∧ entry_of run.1 "b.md" "toString" = None.
Proof.
  cbn zeta.
  assert (Hc : closed
                 (AddPropertiesModal_handleSubmit
                    [PropertyDefinition.mk "priority" (JString "high") text;
                     PropertyDefinition.mk "toString" (JString "x") text]
                    [a_md; b_md] two_doc_vault).2 = true) by reflexivity.
  destruct (AddPropertiesModal_postcondition
              [PropertyDefinition.mk "priority" (JString "high") text;
               PropertyDefinition.mk "toString" (JString "x") text]
              [a_md; b_md] two_doc_vault Hc) as (Hhas & _ & Hinh).
  split; [exact Hc |]. split.
  - intros file block' Hfile Hb.
    apply (Hhas file block' Hfile Hb
             (PropertyDefinition.mk "priority" (JString "high") text));
      [apply list_elem_of_here | discriminate | reflexivity].
  - rewrite (Hinh "b.md" "toString" eq_refl). reflexivity.
Defined.

(** ** The remove run *)

Lemma RemovePropertiesModal_loop_vault (files : list TFile)
    (keysToRemove : list string) (vault : Vault) :
  (∀ file block',
     file ∈ files →
     (RemovePropertiesModal_loop files keysToRemove vault).1 !! path file
     = Some block' →
     ∀ k, k ∈ keysToRemove → block' !! k = None)
  ∧ (∀ p k,
       k ∉ keysToRemove →
       entry_of (RemovePropertiesModal_loop files keysToRemove vault).1 p k
       = entry_of vault p k).
Proof.
  unfold RemovePropertiesModal_loop.
  set (body := λ (file : TFile) (successCount : nat),
         removed <- removePropertiesFromFile file keysToRemove ;;
         ret (if (0 <? removed)%nat then S successCount else successCount)).
  assert (Hbody : ∀ file n v,
            (body file n v).1
            = (removePropertiesFromFile file keysToRemove v).1).
  { intros file n v. unfold body, bind, ret.
    by destruct (removePropertiesFromFile file keysToRemove v). }
  split.
  - intros file block' Hfile.
    apply (for_of_establishes
             (λ file v,
                ∀ block', v !! path file = Some block' →
                  ∀ k, k ∈ keysToRemove → block' !! k = None)
             files body); [| | done | done].
    + intros x n v _ b Hb k Hk. rewrite Hbody in Hb.
      unfold removePropertiesFromFile in Hb.
      rewrite try_processFrontMatter_lookup, decide_True in Hb by done.
      destruct (v !! path x) as [bx|]; [| done]. injection Hb as <-.
      destruct (removeProperties_fold keysToRemove bx 0) as (Hgone & _).
      by apply Hgone.
    + intros x y n v _ _ Hq b Hb k Hk. rewrite Hbody in Hb.
      unfold removePropertiesFromFile in Hb.
      rewrite try_processFrontMatter_lookup in Hb.
      destruct (decide (path y = path x)) as [Heq | Hne];
        [| by apply (Hq b)].
      destruct (v !! path y) as [by_|] eqn:Hy; [| done]. injection Hb as <-.
      destruct (removeProperties_fold keysToRemove by_ 0) as (Hgone & _).
      by apply Hgone.
  - intros p k Hk.
    apply (for_of_invariant
             (λ v (_ : nat), entry_of v p k = entry_of vault p k));
      [| done].
    intros x n v _ <-. rewrite Hbody. unfold entry_of, removePropertiesFromFile.
    rewrite try_processFrontMatter_lookup.
    destruct (decide (p = path x)); [| done].
    destruct (v !! p) as [b|]; [| done]. cbn.
    destruct (removeProperties_fold keysToRemove b 0) as (_ & Hkeep & _).
    by apply Hkeep.
Qed.

(** X17: after a remove run, no document of the file list that can be
    opened has a selected key, and in every document of the vault the
    entries of all other keys are as they were. *)
Theorem RemovePropertiesModal_postcondition (selectedKeys : gset string)
    (files : list TFile) (vault : Vault) :
  let run := RemovePropertiesModal_handleSubmit selectedKeys files vault in
  closed run.2 = true →
  (∀ file block',
     file ∈ files → run.1 !! path file = Some block' →
     ∀ k, k ∈ selectedKeys → block' !! k = None)
  ∧ (∀ p k, k ∉ selectedKeys → entry_of run.1 p k = entry_of vault p k).
Proof.
  cbn zeta. unfold RemovePropertiesModal_handleSubmit.
  destruct (size selectedKeys =? 0)%nat; [discriminate |]. intros _.
  unfold bind, ret.
  pose proof (RemovePropertiesModal_loop_vault files (elements selectedKeys)
                vault) as [Hgone Hkeep].
  destruct (RemovePropertiesModal_loop files _ vault) as [v' n].
  cbn [fst snd] in *. split.
  - intros file block' Hfile Hb k Hk.
    apply (Hgone file block' Hfile Hb). by apply elem_of_elements.
  - intros p k Hk. apply Hkeep. by rewrite elem_of_elements.
Qed.

Lemma RemovePropertiesModal_postcondition_witness :
  let run :=
    RemovePropertiesModal_handleSubmit {[ "priority" ]} [a_md; b_md]
      two_doc_vault in
  closed run.2 = true
  ∧ (∀ file block',
       file ∈ [a_md; b_md] → run.1 !! path file = Some block' →
       ∀ k, k ∈ ({[ "priority" ]} : gset string) → block' !! k = None).
Proof.
  cbn zeta. split; [reflexivity |].
  apply (RemovePropertiesModal_postcondition {[ "priority" ]} [a_md; b_md]
           two_doc_vault).
  reflexivity.
Defined.

(** ** The update-values run *)

(** Whether [updatePropertyValue] stores a value under [key]: the key is
    in the block, or it is not [__proto__] and either missing keys are
    added or it is a name of [Object.prototype]. *)
Lemma updatePropertyValue_fn_lookup (key : string) (value : JsValue)
    (addIfMissing : bool) (block : Frontmatter) (k : string) :
  (updatePropertyValue_fn key value addIfMissing block).1 !! k
  = if decide (k = key)
    then (if bool_decide (is_Some (block !! key))
             || (negb (bool_decide (key = "__proto__"))
                 && (addIfMissing || inherited key))
          then Some value else None)
    else block !! k.
Proof.
  destruct (decide (k = key)) as [-> | Hne].
  2: { unfold updatePropertyValue_fn.
       destruct (has_key key block); [| destruct addIfMissing]; cbn [fst];
         by rewrite ?lookup_assign_ne. }
  unfold updatePropertyValue_fn, has_key.
  destruct (bool_decide (is_Some (block !! key))) eqn:Hhas; cbn [orb fst].
  - apply bool_decide_eq_true in Hhas.
    rewrite assign_insert by auto. apply lookup_insert_eq.
  - apply bool_decide_eq_false in Hhas. apply eq_None_not_Some in Hhas.
    destruct (bool_decide (key = "__proto__")) eqn:Hp; cbn [negb andb].
    + apply bool_decide_eq_true in Hp. subst key. cbn [orb fst].
      by rewrite assign_accessor.
    + apply bool_decide_eq_false in Hp.
      destruct (inherited key), addIfMissing; cbn [orb fst];
        rewrite ?assign_insert by auto; by rewrite ?lookup_insert_eq.
Qed.

Lemma updatePropertyValue_lookup (file : TFile) (key : string)
    (value : JsValue) (addIfMissing : bool) (v : Vault) (p : string) :
  (updatePropertyValue file key value addIfMissing v).1 !! p
  = if decide (p = path file)
    then (λ block, (updatePropertyValue_fn key value addIfMissing block).1)
           <$> v !! p
    else v !! p.
Proof. apply try_processFrontMatter_lookup. Qed.

Lemma EditValuesModal_loop_invariant (I : Vault → Prop) (files : list TFile)
    (enabledEdits : list PropertyValueEdit.t)
    (addToFilesWithoutProperty : bool) (vault : Vault) :
  (∀ file edit v,
     file ∈ files → edit ∈ enabledEdits → I v →
     I (updatePropertyValue file (PropertyValueEdit.key edit)
          (PropertyValueEdit.value edit) addToFilesWithoutProperty v).1) →
  I vault →
  I (EditValuesModal_loop files enabledEdits addToFilesWithoutProperty vault).1.
Proof.
  intros Hstep Hi. unfold EditValuesModal_loop.
  apply (for_of_invariant (λ v (_ : nat * nat), I v)); [| done].
  intros file totals v Hfile Hv.
  apply (for_of_invariant (λ v (_ : nat * nat), I v)); [| done].
  intros edit [u a] v0 Hedit Hv0. unfold bind, ret.
  specialize (Hstep file edit v0 Hfile Hedit Hv0).
  by destruct (updatePropertyValue file _ _ _ v0).
Qed.

Lemma edit_applied_established (addToFilesWithoutProperty : bool)
    (edit : PropertyValueEdit.t) (file : TFile) (v : Vault) :
  edit_applied addToFilesWithoutProperty edit file
    (updatePropertyValue file (PropertyValueEdit.key edit)
       (PropertyValueEdit.value edit) addToFilesWithoutProperty v).1.
Proof.
  intros block Hb Hcond. rewrite updatePropertyValue_lookup in Hb.
  rewrite decide_True in Hb by done.
  destruct (v !! path file) as [b0|]; [| done]. injection Hb as <-.
  rewrite updatePropertyValue_fn_lookup, decide_True in Hcond |- * by done.
  destruct (bool_decide _ || _) eqn:Hor; [done |].
  apply orb_false_iff in Hor as [_ Hor].
  destruct Hcond as [[? ?] | [Hp Hcond]]; [done |].
  rewrite bool_decide_eq_false_2 in Hor by done. cbn [negb andb] in Hor.
  apply orb_false_iff in Hor as [-> Hinh]. destruct Hcond; congruence.
Qed.

Lemma edit_applied_stable (addToFilesWithoutProperty : bool)
    (edit other : PropertyValueEdit.t) (file target : TFile) (v : Vault) :
  (PropertyValueEdit.key other = PropertyValueEdit.key edit →
   PropertyValueEdit.value other = PropertyValueEdit.value edit) →
  edit_applied addToFilesWithoutProperty edit file v →
  edit_applied addToFilesWithoutProperty edit file
    (updatePropertyValue target (PropertyValueEdit.key other)
       (PropertyValueEdit.value other) addToFilesWithoutProperty v).1.
Proof.
  intros Hsame Hq block Hb Hcond. rewrite updatePropertyValue_lookup in Hb.
  destruct (decide (path file = path target)) as [Heq | Hne];
    [| by apply (Hq block)].
  destruct (v !! path file) as [b0|] eqn:Hb0; [| done]. injection Hb as <-.
  rewrite updatePropertyValue_fn_lookup in Hcond |- *.
  destruct (decide (PropertyValueEdit.key edit = PropertyValueEdit.key other))
    as [Hk | Hk].
  - rewrite <- Hsame by done. rewrite <- Hk in *.
    destruct (bool_decide _ || _) eqn:Hor; [done |].
    apply orb_false_iff in Hor as [_ Hor].
    destruct Hcond as [[? ?] | [Hp Hcond]]; [done |].
    rewrite bool_decide_eq_false_2 in Hor by done. cbn [negb andb] in Hor.
    apply orb_false_iff in Hor as [-> Hinh]. destruct Hcond; congruence.
  - by apply (Hq b0).
Qed.

Lemma NoDup_fmap_same {A B} (f : A → B) (l : list A) (x y : A) :
  NoDup (f <$> l) → x ∈ l → y ∈ l → f x = f y → x = y.
Proof.
  induction l as [|z l IH]; [by intros _ ?%elem_of_nil |].
  rewrite fmap_cons, NoDup_cons. intros [Hz Hnd].
  intros [-> | Hx]%elem_of_cons [-> | Hy]%elem_of_cons Heq; [done | | |].
  - exfalso. apply Hz. rewrite Heq. by apply list_elem_of_fmap_2.
  - exfalso. apply Hz. rewrite <- Heq. by apply list_elem_of_fmap_2.
  - by apply IH.
Qed.

Lemma EditValuesModal_loop_applied (files : list TFile)
    (enabledEdits : list PropertyValueEdit.t)
    (addToFilesWithoutProperty : bool) (vault : Vault) :
  NoDup (PropertyValueEdit.key <$> enabledEdits) →
  ∀ file edit,
    file ∈ files → edit ∈ enabledEdits →
    edit_applied addToFilesWithoutProperty edit file
      (EditValuesModal_loop files enabledEdits addToFilesWithoutProperty
         vault).1.
Proof.
  intros Hnd file edit Hfile Hedit. revert edit Hedit.
  assert (Hsame : ∀ e e', e ∈ enabledEdits → e' ∈ enabledEdits →
            PropertyValueEdit.key e' = PropertyValueEdit.key e →
            PropertyValueEdit.value e' = PropertyValueEdit.value e).
  { intros e e' He He' Hk.
    by rewrite (NoDup_fmap_same _ _ e' e Hnd He' He Hk). }
  unfold EditValuesModal_loop.
  set (inner := λ (file : TFile) (e : PropertyValueEdit.t)
                  '((totalUpdated, totalAdded) : nat * nat),
         result <- updatePropertyValue file (PropertyValueEdit.key e)
                     (PropertyValueEdit.value e) addToFilesWithoutProperty ;;
         ret (match result with
              | UpdateResult.updated => (S totalUpdated, totalAdded)
              | UpdateResult.added => (totalUpdated, S totalAdded)
              | UpdateResult.none => (totalUpdated, totalAdded)
              end)).
  assert (Hinner : ∀ f e s v,
            (inner f e s v).1
            = (updatePropertyValue f (PropertyValueEdit.key e)
                 (PropertyValueEdit.value e) addToFilesWithoutProperty v).1).
  { intros f e [u a] v. unfold inner, bind, ret.
    by destruct (updatePropertyValue f _ _ _ v). }
  apply (for_of_establishes
           (λ file v,
              ∀ edit, edit ∈ enabledEdits →
                      edit_applied addToFilesWithoutProperty edit file v)
           files
           (λ file totals, for_of enabledEdits (inner file) totals));
    [| | done | done].
  - intros f totals v _ e He.
    apply (for_of_establishes
             (λ e v, edit_applied addToFilesWithoutProperty e f v)
             enabledEdits (inner f)); [| | done | done].
    + intros e1 s v1 _. rewrite Hinner. apply edit_applied_established.
    + intros e1 e2 s v1 He1 He2 Hq. rewrite Hinner.
      apply edit_applied_stable; [by apply Hsame | done].
  - intros f g totals v _ _ Hq.
    apply (for_of_invariant
             (λ v (_ : nat * nat),
                ∀ edit, edit ∈ enabledEdits →
                        edit_applied addToFilesWithoutProperty edit g v));
      [| done].
    intros e1 s v1 He1 Hq1 e He. rewrite Hinner.
    apply edit_applied_stable; [by apply Hsame | by apply Hq1].
Qed.

(** X18: after an update-values run whose enabled rows have distinct keys,
    every document of the file list that can be opened holds, for every
    enabled row, the row's value under the row's key, provided the key is
    in the block, or is not [__proto__] and missing keys are added or the
    key is a name of [Object.prototype] (which the [in] test always
    finds).  No run deletes an entry, a run that does not add missing keys
    creates none under a key that is not a name of [Object.prototype], and
    entries of keys that no enabled row names are unchanged. *)
Theorem EditValuesModal_postcondition
    (propertyEdits : list PropertyValueEdit.t)
    (addToFilesWithoutProperty : bool) (files : list TFile) (vault : Vault) :
  let enabledEdits := List.filter PropertyValueEdit.enabled propertyEdits in
  let run :=
    EditValuesModal_handleSubmit propertyEdits addToFilesWithoutProperty
      files vault in
  NoDup (PropertyValueEdit.key <$> enabledEdits) →
  closed run.2 = true →
  (∀ file edit,
     file ∈ files → edit ∈ enabledEdits →
     edit_applied addToFilesWithoutProperty edit file run.1)
  ∧ (∀ p k, is_Some (entry_of vault p k) → is_Some (entry_of run.1 p k))
  ∧ (addToFilesWithoutProperty = false →
     ∀ p k, inherited k = false →
            is_Some (entry_of run.1 p k) → is_Some (entry_of vault p k))
  ∧ (∀ p k,
       k ∉ PropertyValueEdit.key <$> enabledEdits →
       entry_of run.1 p k = entry_of vault p k).
Proof.
  cbn zeta. intros Hnd. unfold EditValuesModal_handleSubmit.
  destruct (length _ =? 0)%nat; [discriminate |]. intros _.
  unfold bind, ret.
  set (enabledEdits := List.filter PropertyValueEdit.enabled propertyEdits)
    in *.
  pose proof (EditValuesModal_loop_applied files enabledEdits
                addToFilesWithoutProperty vault Hnd) as Happlied.
  pose proof (λ I, EditValuesModal_loop_invariant I files enabledEdits
                     addToFilesWithoutProperty vault) as Hinv.
  destruct (EditValuesModal_loop files enabledEdits addToFilesWithoutProperty
              vault) as [v' [u a]].
  cbn [fst snd] in *. split; [done |]. split; [| split].
  - intros p k Hk.
    apply (Hinv (λ v, is_Some (entry_of v p k))); [| done].
    intros file edit v _ _ Hv. unfold entry_of in *.
    rewrite updatePropertyValue_lookup.
    destruct (decide (p = path file)); [| done].
    destruct (v !! p) as [b|]; [| done]. cbn in *.
    rewrite updatePropertyValue_fn_lookup. destruct (decide (k = _)); [| done].
    subst k. by rewrite (bool_decide_eq_true_2 _ Hv).
  - intros -> p k Hord.
    apply (Hinv (λ v, is_Some (entry_of v p k) → is_Some (entry_of vault p k)));
      [| done].
    intros file edit v _ _ Hv Hk. apply Hv. unfold entry_of in *.
    rewrite updatePropertyValue_lookup in Hk.
    destruct (decide (p = path file)); [| done].
    destruct (v !! p) as [b|]; [| done]. cbn in *.
    rewrite updatePropertyValue_fn_lookup in Hk.
    destruct (decide (k = _)); [| done]. subst k. rewrite Hord in Hk.
    cbn [orb] in Hk. rewrite andb_false_r, orb_false_r in Hk.
    destruct (bool_decide (is_Some (b !! PropertyValueEdit.key edit))) eqn:Hh;
      [by apply bool_decide_eq_true in Hh | by destruct Hk].
  - intros p k Hk.
    apply (Hinv (λ v, entry_of v p k = entry_of vault p k)); [| done].
    intros file edit v _ Hedit <-. unfold entry_of.
    rewrite updatePropertyValue_lookup.
    destruct (decide (p = path file)); [| done].
    destruct (v !! p) as [b|]; [| done]. cbn.
    rewrite updatePropertyValue_fn_lookup, decide_False; [done |].
    intros ->. apply Hk. by apply list_elem_of_fmap_2.
Qed.

Lemma EditValuesModal_postcondition_witness :
  let edits :=
    [PropertyValueEdit.mk "status" true text (JString "final")
       (JString "draft")] in
  let run := EditValuesModal_handleSubmit edits true [a_md; b_md] two_doc_vault in
  NoDup (PropertyValueEdit.key <$> List.filter PropertyValueEdit.enabled edits)
  ∧ closed run.2 = true
  ∧ (∀ file edit,
       file ∈ [a_md; b_md] →
       edit ∈ List.filter PropertyValueEdit.enabled edits →
       edit_applied true edit file run.1).
Proof.
  cbn zeta.
  assert (Hnd : NoDup (PropertyValueEdit.key
                         <$> List.filter PropertyValueEdit.enabled
                               [PropertyValueEdit.mk "status" true text
                                  (JString "final") (JString "draft")])).
  { cbn. apply NoDup_singleton. }
  split; [exact Hnd |]. split; [reflexivity |].
  apply (EditValuesModal_postcondition
           [PropertyValueEdit.mk "status" true text (JString "final")
              (JString "draft")] true [a_md; b_md] two_doc_vault Hnd).
  reflexivity.
Defined.

(** ** The rename run *)



(** ** Counters *)

Lemma for_of_measure {A S} (μ : S → nat) (c : nat) (xs : list A)
    (body : A → S → Async S) :
  (∀ x s v, (μ (body x s v).2 ≤ μ s + c)%nat) →
  ∀ s v, (μ (for_of xs body s v).2 ≤ μ s + c * length xs)%nat.
Proof.
  intros Hstep. induction xs as [|x xs IH]; intros s v.
  - cbn. lia.
  - rewrite for_of_cons. specialize (IH (body x s v).2 (body x s v).1).
    specialize (Hstep x s v). cbn [length]. lia.
Qed.

(** X20: the numbers a summary reports are bounded by the work of the run:
    an add or remove run counts at most one per file, and a rename,
    update-values or combined edit run counts, in all its counters
    together, at most one per file and enabled row (the combined edit at
    most one rename and one update or addition). *)
Theorem batch_counters_bounded (files : list TFile) (vault : Vault) :
  (∀ validProps,
     ((AddPropertiesModal_loop files validProps vault).2 ≤ length files)%nat)
  ∧ (∀ keysToRemove,
       ((RemovePropertiesModal_loop files keysToRemove vault).2
        ≤ length files)%nat)
  ∧ (∀ enabledRenames addToFilesWithoutProperty,
       let totals :=
         (RenamePropertiesModal_loop files enabledRenames
            addToFilesWithoutProperty vault).2 in
       (totals.1 + totals.2 ≤ length enabledRenames * length files)%nat)
  ∧ (∀ enabledEdits addToFilesWithoutProperty,
       let totals :=
         (EditValuesModal_loop files enabledEdits addToFilesWithoutProperty
            vault).2 in
       (totals.1 + totals.2 ≤ length enabledEdits * length files)%nat)
  ∧ (∀ enabledEdits addToFilesWithoutProperty,
       let totals :=
         (EditPropertiesModal_loop files enabledEdits
            addToFilesWithoutProperty vault).2 in
       (totalRenamed totals ≤ length enabledEdits * length files)%nat
       ∧ (totalUpdated totals + totalAdded totals
          ≤ length enabledEdits * length files)%nat).
Proof.
  split; [| split; [| split; [| split]]].
  - intros props. unfold AddPropertiesModal_loop.
    pose proof (for_of_measure (λ n : nat, n) 1 files
                  (λ file successCount,
                     result <- addPropertiesToFile file props ;;
                     ret (if (0 <? result)%nat then S successCount
                          else successCount))) as H.
    etransitivity; [apply H | cbn; lia].
    intros file n v. unfold bind, ret.
    destruct (addPropertiesToFile file props v) as [v' r]. cbn [snd].
    destruct (0 <? r)%nat; lia.
  - intros keys. unfold RemovePropertiesModal_loop.
    pose proof (for_of_measure (λ n : nat, n) 1 files
                  (λ file successCount,
                     removed <- removePropertiesFromFile file keys ;;
                     ret (if (0 <? removed)%nat then S successCount
                          else successCount))) as H.
    etransitivity; [apply H | cbn; lia].
    intros file n v. unfold bind, ret.
    destruct (removePropertiesFromFile file keys v) as [v' r]. cbn [snd].
    destruct (0 <? r)%nat; lia.
  - intros renames flag. cbn zeta. unfold RenamePropertiesModal_loop.
    etransitivity;
      [apply (for_of_measure (λ t : nat * nat, (t.1 + t.2)%nat)
                (length renames) files) | cbn; lia].
    intros file totals v.
    etransitivity;
      [apply (for_of_measure (λ t : nat * nat, (t.1 + t.2)%nat) 1 renames)
      | lia].
    intros r [tr ta] v0. unfold bind, ret.
    destruct (renamePropertyKey file _ _ v0) as [v1 [|]]; cbn [fst snd];
      [lia |].
    destruct flag; cbn [fst snd]; [| lia].
    destruct (addPropertiesToFile file _ v1) as [v2 n]. cbn [fst snd].
    destruct (0 <? n)%nat; lia.
  - intros edits flag. cbn zeta. unfold EditValuesModal_loop.
    etransitivity;
      [apply (for_of_measure (λ t : nat * nat, (t.1 + t.2)%nat)
                (length edits) files) | cbn; lia].
    intros file totals v.
    etransitivity;
      [apply (for_of_measure (λ t : nat * nat, (t.1 + t.2)%nat) 1 edits)
      | lia].
    intros e [tu ta] v0. unfold bind, ret.
    destruct (updatePropertyValue file _ _ _ v0) as [v1 []]; cbn [fst snd];
      lia.
  - intros edits flag. cbn zeta. unfold EditPropertiesModal_loop. split.
    + etransitivity;
        [apply (for_of_measure totalRenamed (length edits) files)
        | cbn; lia].
      intros file totals v.
      etransitivity; [apply (for_of_measure totalRenamed 1 edits) | lia].
      intros e t v0. unfold EditPropertiesModal_step, bind, ret.
      destruct (_ && _).
      * destruct (renamePropertyKey file _ _ v0) as [v1 [|]];
          destruct (PropertyEdit.updateValue e);
          try (destruct (updatePropertyValue file _ _ _ v1) as [v2 []]);
          cbn [fst snd totalRenamed]; lia.
      * destruct (PropertyEdit.updateValue e);
          try (destruct (updatePropertyValue file _ _ _ v0) as [v2 []]);
          cbn [fst snd totalRenamed]; lia.
    + etransitivity;
        [apply (for_of_measure
                  (λ t, (totalUpdated t + totalAdded t)%nat)
                  (length edits) files)
        | cbn; lia].
      intros file totals v.
      etransitivity;
        [apply (for_of_measure
                  (λ t, (totalUpdated t + totalAdded t)%nat) 1 edits)
        | lia].
      intros e t v0. unfold EditPropertiesModal_step, bind, ret.
      destruct (_ && _).
      * destruct (renamePropertyKey file _ _ v0) as [v1 [|]];
          destruct (PropertyEdit.updateValue e);
          try (destruct (updatePropertyValue file _ _ _ v1) as [v2 []]);
          cbn [fst snd totalUpdated totalAdded]; lia.
      * destruct (PropertyEdit.updateValue e);
          try (destruct (updatePropertyValue file _ _ _ v0) as [v2 []]);
          cbn [fst snd totalUpdated totalAdded]; lia.
Qed.

(** * Further properties of the folder traversal *)

Lemma getFilesFromFolder_sublist (folder : TFolder) :
  ∀ (incl incl' : bool) (N M cur cur' : Z),
    (∀ i : Z, 0 ≤ i →
       incl && ((N =? -1) || (cur + i <? N)) = true →
       incl' && ((M =? -1) || (cur' + i <? M)) = true) →
    getFilesFromFolder folder incl N cur
      `sublist_of` getFilesFromFolder folder incl' M cur'.
Proof.
  induction folder as [p cs IH] using TFolder_subfolder_ind.
  intros incl incl' N M cur cur' Hmono. rewrite !getFilesFromFolder_visit.
  induction cs as [|[f|sub] cs IHcs]; [done | |].
  - apply Forall_cons in IH as [_ IH]. cbn [mbind list_bind visit].
    apply sublist_app; [done | by apply IHcs].
  - apply Forall_cons in IH as [Hsub IH]. cbn [mbind list_bind visit].
    apply sublist_app; [| by apply IHcs].
    destruct (incl && ((N =? -1) || (cur <? N))) eqn:Hgo;
      [| apply sublist_nil_l].
    specialize (Hmono 0) as H0. rewrite !Z.add_0_r in H0.
    rewrite H0 by (done || lia). apply Hsub.
    intros i Hi. specialize (Hmono (i + 1)).
    rewrite !Z.add_assoc in Hmono.
    replace (cur + i + 1) with (cur + 1 + i) in Hmono by lia.
    replace (cur' + i + 1) with (cur' + 1 + i) in Hmono by lia.
    apply Hmono. lia.
Qed.

(** X21: the options only narrow the listing, keeping the order: every
    listing is a sublist of the unlimited listing with subfolders; with a
    non-negative depth level a larger level only adds files; and
    switching subfolders off only removes files. *)
Theorem getFilesFromFolder_monotone (folder : TFolder) :
  (∀ incl depthLevel,
     getFilesFromFolder folder incl depthLevel 0
       `sublist_of` getFilesFromFolder folder true (-1) 0)
  ∧ (∀ incl (N M : Z),
       0 ≤ N → N ≤ M →
       getFilesFromFolder folder incl N 0
         `sublist_of` getFilesFromFolder folder incl M 0)
  ∧ (∀ depthLevel,
       getFilesFromFolder folder false depthLevel 0
         `sublist_of` getFilesFromFolder folder true depthLevel 0).
Proof.
  split; [| split].
  - intros incl N. by apply getFilesFromFolder_sublist.
  - intros incl N M HN HM. apply getFilesFromFolder_sublist.
    intros i Hi. destruct incl; [| done]. cbn [andb]. lia.
  - intros N. by apply getFilesFromFolder_sublist.
Qed.

Lemma getFilesFromFolder_monotone_witness :
  0 ≤ 0 ∧ 0 ≤ 1
  ∧ getFilesFromFolder notes_folder true 0 0
      `sublist_of` getFilesFromFolder notes_folder true 1 0.
Proof.
  assert (H0 : 0 ≤ 0) by lia. assert (H1 : 0 ≤ 1) by lia.
  split; [exact H0 |]. split; [exact H1 |].
  exact (proj1 (proj2 (getFilesFromFolder_monotone notes_folder))
           true 0 1 H0 H1).
Defined.

Lemma getFilesFromFolder_saturated (folder : TFolder) :
  ∀ (N cur cur' : Z),
    cur + Z.of_nat (height folder) ≤ N →
    getFilesFromFolder folder true N cur
    = getFilesFromFolder folder true (-1) cur'.
Proof.
  induction folder as [p cs IH] using TFolder_subfolder_ind.
  intros N cur cur' Hh. rewrite !getFilesFromFolder_visit.
  cbn [height] in Hh.
  induction cs as [|[f|sub] cs IHcs]; [done | |].
  - apply Forall_cons in IH as [_ IH]. cbn [mbind list_bind visit].
    f_equal. by apply IHcs.
  - apply Forall_cons in IH as [Hsub IH]. cbn [mbind list_bind visit andb].
    change ((-1 =? -1) || (cur' <? -1)) with true. cbn iota.
    assert ((N =? -1) || (cur <? N) = true) as -> by lia.
    f_equal; [apply Hsub; lia | apply IHcs; [done | lia]].
Qed.

(** X22: the depth level only matters between 0 and the height of the
    folder: a level that is at least the number of folder levels below the
    folder gives the unlimited listing, and a negative level other than
    -1 gives the direct Markdown children only, like level 0. *)
Theorem getFilesFromFolder_depth_range (folder : TFolder) (depthLevel : Z) :
  (Z.of_nat (height folder) ≤ depthLevel →
   getFilesFromFolder folder true depthLevel 0
   = getFilesFromFolder folder true (-1) 0)
  ∧ (depthLevel < -1 →
     getFilesFromFolder folder true depthLevel 0 = directFiles folder).
Proof.
  split.
  - intros Hh. apply getFilesFromFolder_saturated. lia.
  - intros Hneg. apply getFilesFromFolder_no_descent. cbn [andb]. lia.
Qed.

Lemma getFilesFromFolder_depth_range_witness :
  Z.of_nat (height notes_folder) ≤ 1
  ∧ getFilesFromFolder notes_folder true 1 0
    = getFilesFromFolder notes_folder true (-1) 0
  ∧ -2 < -1
  ∧ getFilesFromFolder notes_folder true (-2) 0 = directFiles notes_folder.
Proof.
  assert (Hh : Z.of_nat (height notes_folder) ≤ 1) by (cbn; lia).
  assert (Hn : -2 < -1) by lia.
  split; [exact Hh |].
  split; [exact (proj1 (getFilesFromFolder_depth_range notes_folder 1) Hh) |].
  split; [exact Hn |].
  exact (proj2 (getFilesFromFolder_depth_range notes_folder (-2)) Hn).
Defined.

(** ** FolderPickerModal.getAllFolders *)

Lemma collectFolders_visit (folder : TFolder) :
  ∀ folders,
    collectFolders folder folders
    = folders ++ folder :: (children_of folder ≫= visit_folder).
Proof.
  induction folder as [p cs IH] using TFolder_subfolder_ind.
  intros folders. cbn [collectFolders children_of].
  match goal with
  | |- ?loop cs _ = _ =>
      enough (∀ found, loop cs found = found ++ (cs ≫= visit_folder))
        as Hloop
  end.
  { rewrite Hloop. by rewrite <- app_assoc. }
  clear folders. induction cs as [|[f|sub] cs IHcs]; intros acc.
  - cbn. by rewrite app_nil_r.
  - apply Forall_cons in IH as [_ IH]. cbn [mbind list_bind visit_folder].
    by apply IHcs.
  - apply Forall_cons in IH as [Hsub IH]. cbn [mbind list_bind visit_folder].
    rewrite (IHcs IH), Hsub, (Hsub []). cbn [app].
    by rewrite <- app_assoc.
Qed.

Lemma elem_of_collectFolders (folder d : TFolder) :
  d ∈ collectFolders folder [] ↔ in_subtree folder d.
Proof.
  revert d. induction folder as [p cs IH] using TFolder_subfolder_ind.
  intros d. rewrite collectFolders_visit. cbn [app children_of].
  rewrite Forall_forall in IH.
  rewrite elem_of_cons, list_elem_of_bind. split.
  - intros [-> | ([f|sub] & Hd & Hc)]; [constructor | |].
    + by apply elem_of_nil in Hd.
    + apply in_subtree_below with sub; [done |]. by apply (IH _ Hc).
  - intros Hin. inversion Hin as [| ? ? sub ? Hc Hsub]; subst; [by left |].
    right. exists (inr sub). split; [| done]. by apply (IH _ Hc).
Qed.

Lemma elem_of_directFiles (folder : TFolder) (f : TFile) :
  f ∈ directFiles folder ↔ inl f ∈ children_of folder ∧ is_md f = true.
Proof.
  unfold directFiles. rewrite list_elem_of_omap. split.
  - intros ([g|sub] & Hc & Hf); [| done].
    destruct (is_md g) eqn:Hmd; [| done]. by injection Hf as <-.
  - intros [Hc Hmd]. exists (inl f). by rewrite Hmd.
Qed.

Lemma getFilesFromFolder_by_folder (folder : TFolder) :
  ∀ (cur : Z) (f : TFile),
    f ∈ getFilesFromFolder folder true (-1) cur ↔
    ∃ d, d ∈ collectFolders folder [] ∧ f ∈ directFiles d.
Proof.
  induction folder as [p cs IH] using TFolder_subfolder_ind.
  intros cur f. rewrite Forall_forall in IH.
  rewrite getFilesFromFolder_visit, list_elem_of_bind. split.
  - intros ([g|sub] & Hf & Hc); cbn [visit andb] in Hf.
    + exists (mkTFolder p cs).
      split; [apply elem_of_collectFolders; constructor |].
      apply elem_of_directFiles. cbn [children_of].
      destruct (is_md g) eqn:Hmd; [| by apply elem_of_nil in Hf].
      by apply list_elem_of_singleton in Hf as ->.
    + change ((-1 =? -1) || (cur <? -1)) with true in Hf. cbn iota in Hf.
      apply (IH _ Hc) in Hf as (d & Hd & Hfd). exists d. split; [| done].
      apply elem_of_collectFolders. apply in_subtree_below with sub; [done |].
      by apply elem_of_collectFolders.
  - intros (d & Hd & Hfd). apply elem_of_collectFolders in Hd.
    inversion Hd as [| ? ? sub ? Hc Hsub]; subst.
    + apply elem_of_directFiles in Hfd as [Hc Hmd]. exists (inl f).
      split; [| done]. cbn [visit]. rewrite Hmd.
      by apply list_elem_of_singleton.
    + exists (inr sub). split; [| done]. cbn [visit andb].
      change ((-1 =? -1) || (cur <? -1)) with true. cbn iota.
      apply (IH _ Hc). exists d. split; [| done].
      by apply elem_of_collectFolders.
Qed.

(** X23: [getAllFolders] lists the root first and then exactly the folders
    below it, and together with the direct Markdown children of each
    listed folder it accounts for the unlimited file listing: a file is in
    that listing exactly when it is a direct Markdown child of one of the
    listed folders. *)
Theorem getAllFolders_covers_tree (root : TFolder) :
  (∃ below, getAllFolders root = root :: below)
  ∧ (∀ d, d ∈ getAllFolders root ↔ in_subtree root d)
  ∧ (∀ f,
       f ∈ getFilesFromFolder root true (-1) 0 ↔
       ∃ d, d ∈ getAllFolders root ∧ f ∈ directFiles d).
Proof.
  unfold getAllFolders. split; [| split].
  - rewrite collectFolders_visit. by eexists.
  - intros d. apply elem_of_collectFolders.
  - intros f. apply getFilesFromFolder_by_folder.
Qed.

(** * Further properties of the rename run *)

Lemma RenamePropertiesModal_loop_invariant (I : Vault → Prop)
    (files : list TFile) (enabledRenames : list PropertyRename.t)
    (addToFilesWithoutProperty : bool) (vault : Vault) :
  (∀ file r v,
     file ∈ files → r ∈ enabledRenames → I v →
     I (renamePropertyKey file (PropertyRename.originalKey r)
          (PropertyRename.newKey r) v).1) →
  (∀ file r v,
     file ∈ files → r ∈ enabledRenames →
     addToFilesWithoutProperty = true → I v →
     I (addPropertiesToFile file
          [PropertyDefinition.mk (PropertyRename.newKey r)
             (JString EmptyString) text] v).1) →
  I vault →
  I (RenamePropertiesModal_loop files enabledRenames addToFilesWithoutProperty
       vault).1.
Proof.
  intros Hren Hadd Hi. unfold RenamePropertiesModal_loop.
  apply (for_of_invariant (λ v (_ : nat * nat), I v)); [| done].
  intros file totals v Hfile Hv.
  apply (for_of_invariant (λ v (_ : nat * nat), I v)); [| done].
  intros r [tr ta] v0 Hr Hv0. unfold bind, ret.
  specialize (Hren file r v0 Hfile Hr Hv0).
  destruct (renamePropertyKey file _ _ v0) as [v1 [|]]; cbn [fst] in *;
    [done |].
  destruct addToFilesWithoutProperty; cbn [fst]; [| done].
  specialize (Hadd file r v1 Hfile Hr eq_refl Hren).
  by destruct (addPropertiesToFile file _ v1).
Qed.

(** Where an entry of the renamed block comes from. *)
Lemma renamePropertyKey_fn_from (oldKey newKey : string)
    (block : Frontmatter) (k : string) (y : JsValue) :
  (renamePropertyKey_fn oldKey newKey block).1 !! k = Some y →
  block !! k = Some y
  ∨ block !! oldKey = Some y
  ∨ (inherited oldKey = true ∧ y = JPrototypeMember oldKey).
Proof.
  unfold renamePropertyKey_fn, get.
  destruct (block !! oldKey) as [x|] eqn:Hold;
    [| destruct (inherited oldKey) eqn:Hinh]; cbn [fst]; [| | by left].
  - intros [Hne Hk]%lookup_delete_Some.
    destruct (decide (newKey = k)) as [-> | Hnew];
      [| rewrite lookup_assign_ne in Hk by done; by left].
    destruct (lookup_assign_eq k x block) as [Hx | (_ & _ & Heq)].
    + right. left. congruence.
    + left. by rewrite Heq in Hk.
  - intros [Hne Hk]%lookup_delete_Some.
    destruct (decide (newKey = k)) as [-> | Hnew];
      [| rewrite lookup_assign_ne in Hk by done; by left].
    destruct (lookup_assign_eq k (JPrototypeMember oldKey) block)
      as [Hx | (_ & _ & Heq)].
    + right. right. split; [done | congruence].
    + left. by rewrite Heq in Hk.
Qed.

Lemma renamePropertyKey_fn_other (oldKey newKey : string)
    (block : Frontmatter) (k : string) :
  k ≠ oldKey → k ≠ newKey →
  (renamePropertyKey_fn oldKey newKey block).1 !! k = block !! k.
Proof.
  intros Hold Hnew. unfold renamePropertyKey_fn.
  destruct (get oldKey block); [| done]. cbn [fst].
  rewrite lookup_delete_ne by done. by rewrite lookup_assign_ne.
Qed.

Lemma addProperties_fn_other_key (properties : list PropertyDefinition.t)
    (block : Frontmatter) (k : string) :
  Forall (λ prop, PropertyDefinition.key prop ≠ k) properties →
  (addProperties_fn properties block).1 !! k = block !! k.
Proof.
  unfold addProperties_fn. generalize 0%nat. revert block.
  induction properties as [|prop props IH]; intros block n Hk; [done |].
  apply Forall_cons in Hk as [Hprop Hk]. cbn [foldl].
  rewrite addProperties_step_eq.
  destruct (negb (nonempty (PropertyDefinition.key prop))); [by apply IH |].
  destruct (negb (has_key (PropertyDefinition.key prop) block));
    [| by apply IH].
  rewrite IH by done. by rewrite lookup_insert_ne.
Qed.

(** X24: a rename run moves values: every value a document holds
    afterwards is a value that document held before, or the empty text
    created for a missing key when missing keys are added, or the member
    of [Object.prototype] that the original key of an enabled row names
    (which the [in] test finds in every block).  The entries of keys that
    no enabled row names, as original or as new name, are unchanged. *)
Theorem RenamePropertiesModal_values_preserved
    (propertyRenames : list PropertyRename.t)
    (addToFilesWithoutProperty : bool) (files : list TFile) (vault : Vault) :
  let enabledRenames := RenamePropertiesModal_enabledRenames propertyRenames in
  let run :=
    RenamePropertiesModal_handleSubmit propertyRenames
      addToFilesWithoutProperty files vault in
  (∀ p k x,
     entry_of run.1 p k = Some x →
     (∃ k0, entry_of vault p k0 = Some x)
     ∨ (addToFilesWithoutProperty = true ∧ x = JString EmptyString)
     ∨ (∃ r, r ∈ enabledRenames
             ∧ inherited (PropertyRename.originalKey r) = true
             ∧ x = JPrototypeMember (PropertyRename.originalKey r)))
  ∧ (∀ p k,
       k ∉ PropertyRename.originalKey <$> enabledRenames →
       k ∉ PropertyRename.newKey <$> enabledRenames →
       entry_of run.1 p k = entry_of vault p k).
Proof.
  cbn zeta. unfold RenamePropertiesModal_handleSubmit.
  destruct (length _ =? 0)%nat; [split; [intros p k x ?; left; by exists k | done] |].
  unfold bind, ret.
  pose proof (λ I, RenamePropertiesModal_loop_invariant I files
                     (RenamePropertiesModal_enabledRenames propertyRenames)
                     addToFilesWithoutProperty vault) as Hinv.
  destruct (RenamePropertiesModal_loop files _ addToFilesWithoutProperty vault)
    as [v' [tr ta]].
  cbn [fst snd] in *. split.
  - apply (Hinv (λ v, ∀ p k x,
                   entry_of v p k = Some x →
                   (∃ k0, entry_of vault p k0 = Some x)
                   ∨ (addToFilesWithoutProperty = true
                      ∧ x = JString EmptyString)
                   ∨ (∃ r, r ∈ RenamePropertiesModal_enabledRenames
                                 propertyRenames
                           ∧ inherited (PropertyRename.originalKey r) = true
                           ∧ x = JPrototypeMember
                                   (PropertyRename.originalKey r)))).
    + intros file r v _ Hr Hv p k x. unfold entry_of, renamePropertyKey.
      rewrite try_processFrontMatter_lookup.
      destruct (decide (p = path file)); [| apply Hv].
      destruct (v !! p) as [b|] eqn:Hb; [| done]. cbn.
      specialize (Hv p). unfold entry_of in Hv. rewrite Hb in Hv. cbn in Hv.
      intros [Hx | [Hx | [Hinh ->]]]%renamePropertyKey_fn_from.
      * by apply (Hv k).
      * by apply (Hv (PropertyRename.originalKey r)).
      * right. right. by exists r.
    + intros file r v _ _ Hflag Hv p k x. unfold entry_of, addPropertiesToFile.
      rewrite try_processFrontMatter_lookup.
      destruct (decide (p = path file)); [| apply Hv].
      destruct (v !! p) as [b|] eqn:Hb; [| done]. cbn.
      specialize (Hv p). unfold entry_of in Hv. rewrite Hb in Hv. cbn in Hv.
      intros Hx.
      destruct (proj1 (proj2 (addProperties_fold_present
                         [PropertyDefinition.mk (PropertyRename.newKey r)
                            (JString EmptyString) text] b 0)) k x Hx)
        as [Hold | (q & Hq & _ & Hval)]; [by apply (Hv k) |].
      apply list_elem_of_singleton in Hq. subst q. right. left. by split.
    + intros p k x Hx. left. by exists k.
  - intros p k Hold Hnew.
    apply (Hinv (λ v, entry_of v p k = entry_of vault p k)); [| | done].
    + intros file r v _ Hr <-. unfold entry_of, renamePropertyKey.
      rewrite try_processFrontMatter_lookup.
      destruct (decide (p = path file)); [| done].
      destruct (v !! p) as [b|]; [| done]. cbn.
      rewrite renamePropertyKey_fn_other; [done | |]; intros ->.
      * apply Hold. by apply list_elem_of_fmap_2.
      * apply Hnew. by apply list_elem_of_fmap_2.
    + intros file r v _ Hr _ <-. unfold entry_of, addPropertiesToFile.
      rewrite try_processFrontMatter_lookup.
      destruct (decide (p = path file)); [| done].
      destruct (v !! p) as [b|]; [| done]. cbn [fmap option_fmap option_map
                                                 mbind option_bind].
      apply addProperties_fn_other_key. constructor; [| constructor].
      cbn [PropertyDefinition.key]. intros <-.
      apply Hnew. by apply list_elem_of_fmap_2.
Qed.

Lemma RenamePropertiesModal_values_preserved_witness :
  let run :=
    RenamePropertiesModal_handleSubmit rename_status true [a_md; b_md]
      two_doc_vault in
  entry_of run.1 "a.md" "state" = Some (JString "draft")
  ∧ ((∃ k0, entry_of two_doc_vault "a.md" k0 = Some (JString "draft"))
     ∨ (true = true ∧ JString "draft" = JString EmptyString)
     ∨ (∃ r, r ∈ RenamePropertiesModal_enabledRenames rename_status
             ∧ inherited (PropertyRename.originalKey r) = true
             ∧ JString "draft"
               = JPrototypeMember (PropertyRename.originalKey r))).
Proof.
  cbn zeta.
  assert (H : entry_of
                (RenamePropertiesModal_handleSubmit rename_status true
                   [a_md; b_md] two_doc_vault).1 "a.md" "state"
              = Some (JString "draft")) by reflexivity.
  split; [exact H |].
  exact (proj1 (RenamePropertiesModal_values_preserved rename_status true
                  [a_md; b_md] two_doc_vault) "a.md" "state" _ H).
Defined.

(** * Further properties of the forms *)

Lemma getFilesFromFolder_listed (folder : TFolder) (incl : bool)
    (depthLevel : Z) (f : TFile) :
  f ∈ getFilesFromFolder folder incl depthLevel 0 →
  is_md f = true ∧ ∃ d : nat, at_depth d folder f.
Proof.
  intros Hf.
  assert (f ∈ getFilesFromFolder folder true (-1) 0) as Hall.
  { eapply elem_of_sublist; [exact Hf |].
    by apply getFilesFromFolder_sublist. }
  apply elem_of_getFilesFromFolder in Hall as (Hmd & d & _ & Hat); [| by left].
  split; [done | by exists d].
Qed.

(** X25: when [handleContinue] opens a modal, it is the modal of the
    chosen action and its file list is not empty.  In folder mode the list
    is the listing of the selected folder under the chosen options, so it
    holds only Markdown files of that folder's subtree, and the folder is
    passed on; in files mode the list is the selection and no folder is
    passed on. *)
Theorem FileSelectionModal_handleContinue_opens (action : PropertyAction)
    (selectionMode : SelectionMode) (selectedFolder : option TFolder)
    (selectedFiles : list TFile) (folderOptions : FolderOptions.t)
    (m : OpenedModal) :
  FileSelectionModal_handleContinue action selectionMode selectedFolder
    selectedFiles folderOptions = inr m →
  opened_files m ≠ []
  ∧ m = match action with
        | action_add =>
            open_AddPropertiesModal (opened_files m) (opened_folder m)
        | action_remove =>
            open_RemovePropertiesModal (opened_files m) (opened_folder m)
        | action_edit =>
            open_EditPropertiesModal (opened_files m) (opened_folder m)
        end
  ∧ match selectionMode with
    | mode_folder =>
        ∃ folder,
          selectedFolder = Some folder
          ∧ opened_folder m = Some folder
          ∧ opened_files m
            = getFilesFromFolder folder
                (FolderOptions.includeSubfolders folderOptions)
                (FolderOptions.depthLevel folderOptions) 0
          ∧ ∀ f, f ∈ opened_files m →
                 is_md f = true ∧ ∃ d : nat, at_depth d folder f
    | mode_files => opened_folder m = None ∧ opened_files m = selectedFiles
    end.
Proof.
  unfold FileSelectionModal_handleContinue.
  destruct selectionMode.
  - destruct selectedFolder as [folder|]; [| done].
    destruct (length _ =? 0)%nat eqn:Hlen; [done |].
    apply Nat.eqb_neq in Hlen. intros [= <-].
    assert (getFilesFromFolder folder
              (FolderOptions.includeSubfolders folderOptions)
              (FolderOptions.depthLevel folderOptions) 0 ≠ []) as Hne.
    { intros Hnil. by rewrite Hnil in Hlen. }
    destruct action; cbn [opened_files opened_folder];
      (split; [done |]); (split; [done |]); exists folder;
      (repeat (split; [done |])); intros f Hf;
      by apply getFilesFromFolder_listed in Hf.
  - destruct (length selectedFiles =? 0)%nat eqn:Hlen; [done |].
    apply Nat.eqb_neq in Hlen. intros [= <-].
    assert (selectedFiles ≠ []) as Hne.
    { intros Hnil. by rewrite Hnil in Hlen. }
    by destruct action.
Qed.

Lemma FileSelectionModal_handleContinue_opens_witness :
  let opts := FolderOptions.mk true (-1) in
  FileSelectionModal_handleContinue action_remove mode_folder
    (Some notes_folder) [] opts
  = inr (open_RemovePropertiesModal [x_md; y_md] (Some notes_folder))
  ∧ opened_files (open_RemovePropertiesModal [x_md; y_md] (Some notes_folder))
    ≠ [].
Proof.
  cbn zeta.
  assert (H : FileSelectionModal_handleContinue action_remove mode_folder
                (Some notes_folder) [] (FolderOptions.mk true (-1))
              = inr (open_RemovePropertiesModal [x_md; y_md]
                       (Some notes_folder))) by reflexivity.
  split; [exact H |].
  exact (proj1 (FileSelectionModal_handleContinue_opens _ _ _ _ _ _ H)).
Defined.

Lemma unedited_rows_not_applied (rows toggled : list PropertyRename.t) :
  Forall (λ r, PropertyRename.newKey r = PropertyRename.originalKey r) rows →
  Forall2 (λ r r', PropertyRename.originalKey r' = PropertyRename.originalKey r
                   ∧ PropertyRename.newKey r' = PropertyRename.newKey r)
    rows toggled →
  RenamePropertiesModal_enabledRenames toggled = [].
Proof.
  intros Hrows Hsame. revert Hrows.
  induction Hsame as [|r r' rows toggled [Ho Hn] _ IH]; [done |].
  intros [Hnew Hrows]%Forall_cons.
  unfold RenamePropertiesModal_enabledRenames in *. cbn [List.filter].
  assert (string_neq (PropertyRename.originalKey r')
            (PropertyRename.newKey r') = false) as ->.
  { unfold string_neq. rewrite bool_decide_eq_true_2; [done |]. congruence. }
  rewrite andb_false_r. cbn [andb]. by apply IH.
Qed.

Section Rows.
Variable sort_by : SortBy.
Hypothesis sort_by_permutes :
  ∀ (A : Type) (f : A → string) (l : list A), sort_by A f l ≡ₚ l.

Lemma rename_rows_keys (existing : gmap string ExistingProperty.t) :
  PropertyRename.originalKey
    <$> RenamePropertiesModal_initializePropertyRenames sort_by existing
  ≡ₚ (map_to_list existing).*1.
Proof.
  unfold RenamePropertiesModal_initializePropertyRenames.
  rewrite <- list_fmap_compose.
  etransitivity; [| apply (sort_by_permutes string (λ key, key))].
  generalize (sort_by string (λ key, key) (map_to_list existing).*1).
  intros l. induction l as [|key l IH]; [done |]. cbn. by f_equiv.
Qed.


Lemma elem_of_keys_dom {A} (m : gmap string A) (k : string) :
  k ∈ (map_to_list m).*1 ↔ k ∈ dom m.
Proof.
  rewrite elem_of_dom, list_elem_of_fmap. split.
  - intros ([k' x] & -> & Hin). apply elem_of_map_to_list in Hin. by exists x.
  - intros [x Hx]. exists (k, x). split; [done |].
    by apply elem_of_map_to_list.
Qed.

(** X26: the rename form starts with one row per aggregated key, each key
    once and never [tags], every row disabled and with the new name equal
    to the original one.  Whatever rows are then switched on, as long as
    no name is edited no row is applied. *)
Theorem RenamePropertiesModal_initial_rows (files : list TFile)
    (vault : Vault) :
  let existing := (loadExistingProperties files vault).2 in
  let rows := RenamePropertiesModal_initializePropertyRenames sort_by existing in
  NoDup (PropertyRename.originalKey <$> rows)
  ∧ (∀ k, k ∈ PropertyRename.originalKey <$> rows ↔ k ∈ dom existing)
  ∧ Forall (λ r, PropertyRename.newKey r = PropertyRename.originalKey r
                 ∧ PropertyRename.enabled r = false
                 ∧ PropertyRename.originalKey r ≠ "tags") rows
  ∧ (∀ toggled,
       Forall2 (λ r r', PropertyRename.originalKey r' = PropertyRename.originalKey r
                        ∧ PropertyRename.newKey r' = PropertyRename.newKey r)
         rows toggled →
       RenamePropertiesModal_enabledRenames toggled = []).
Proof.
  cbn zeta. set (existing := (loadExistingProperties files vault).2).
  pose proof (rename_rows_keys existing) as Hkeys.
  assert (Hkey : ∀ k,
            k ∈ PropertyRename.originalKey
                  <$> RenamePropertiesModal_initializePropertyRenames sort_by
                        existing ↔ k ∈ dom existing).
  { intros k. by rewrite Hkeys, elem_of_keys_dom. }
  assert (Hrows : Forall
            (λ r, PropertyRename.newKey r = PropertyRename.originalKey r
                  ∧ PropertyRename.enabled r = false
                  ∧ PropertyRename.originalKey r ≠ "tags")
            (RenamePropertiesModal_initializePropertyRenames sort_by existing)).
  { apply Forall_forall. intros r Hr.
    assert (PropertyRename.originalKey r ∈ dom existing) as Hdom.
    { apply Hkey. by apply list_elem_of_fmap_2. }
    unfold RenamePropertiesModal_initializePropertyRenames in Hr.
    apply list_elem_of_fmap in Hr as (key & -> & _). cbn in *.
    split; [done |]. split; [done |]. intros ->.
    apply elem_of_dom in Hdom as [prop Hprop]. unfold existing in Hprop.
    by rewrite loadExistingProperties_no_tags in Hprop. }
  split; [rewrite Hkeys; apply NoDup_fst_map_to_list |].
  split; [exact Hkey |]. split; [exact Hrows |].
  intros toggled Hsame.
  apply (unedited_rows_not_applied _ toggled) in Hsame; [done |].
  eapply Forall_impl; [exact Hrows |]. by intros r (? & _).
Qed.

End Rows.

Lemma RenamePropertiesModal_initial_rows_witness :
  let sort_by : SortBy := λ A f l, l in
  (∀ (A : Type) (f : A → string) (l : list A), sort_by A f l ≡ₚ l)
  ∧ NoDup
      (PropertyRename.originalKey
         <$> RenamePropertiesModal_initializePropertyRenames sort_by
               (loadExistingProperties [a_md; b_md] two_doc_vault).2).
Proof.
  cbn zeta.
  assert (Hp : ∀ (A : Type) (f : A → string) (l : list A),
            (λ (A : Type) (_ : A → string) (l : list A), l) A f l ≡ₚ l)
    by done.
  split; [exact Hp |].
  exact (proj1 (RenamePropertiesModal_initial_rows _ Hp [a_md; b_md]
                  two_doc_vault)).
Defined.


(** ** The list field *)

Lemma split_comma_cons (c : N) (s : CodeUnits) :
  is_comma c = false →
  ∃ piece pieces,
    split_comma s = piece :: pieces
    ∧ split_comma (c :: s) = (c :: piece) :: pieces.
Proof.
  intros Hc. cbn [split_comma]. rewrite Hc.
  destruct (split_comma s) as [|piece pieces] eqn:Hs.
  - destruct s as [|d s]; [done |]. cbn [split_comma] in Hs.
    destruct (is_comma d); [done |]. by destruct (split_comma s).
  - by exists piece, pieces.
Qed.

Lemma split_comma_app (a t : CodeUnits) :
  has_comma a = false →
  split_comma (a ++ 44%N :: t) = a :: split_comma t.
Proof.
  unfold has_comma. induction a as [|c a IH]; [done |]. cbn [existsb].
  intros [Hc Ha]%orb_false_iff. cbn [app split_comma].
  by rewrite Hc, IH.
Qed.

Lemma split_comma_free (a : CodeUnits) :
  has_comma a = false → split_comma a = [a].
Proof.
  unfold has_comma. induction a as [|c a IH]; [done |]. cbn [existsb].
  intros [Hc Ha]%orb_false_iff. cbn [split_comma]. by rewrite Hc, IH.
Qed.

Lemma split_comma_pieces (s : CodeUnits) :
  Forall (λ piece, has_comma piece = false) (split_comma s).
Proof.
  unfold has_comma. induction s as [|c s IH]; [by repeat constructor |].
  cbn [split_comma]. destruct (is_comma c) eqn:Hc; [by constructor |].
  destruct (split_comma s) as [|piece pieces].
  - repeat constructor. cbn. by rewrite Hc.
  - apply Forall_cons in IH as [Hp Hps]. constructor; [| done].
    cbn. by rewrite Hc.
Qed.

Lemma split_comma_show_list (items : list CodeUnits) :
  Forall (λ item, has_comma item = false) items →
  split_comma (show_list items)
  = match items with
    | [] => [[]]
    | item :: others => item :: (cons 32%N <$> others)
    end.
Proof.
  unfold show_list. induction items as [|a items IH]; [done |].
  intros [Ha Hitems]%Forall_cons. specialize (IH Hitems).
  destruct items as [|b items]; [by apply split_comma_free |].
  change (join [44%N; 32%N] (a :: b :: items))
    with (a ++ 44%N :: 32%N :: join [44%N; 32%N] (b :: items)).
  rewrite split_comma_app by done. f_equal.
  destruct (split_comma_cons 32 (join [44%N; 32%N] (b :: items)) eq_refl)
    as (piece & pieces & Hs & ->).
  rewrite IH in Hs. by injection Hs as <- <-.
Qed.

Lemma trimEnd_keeps_head (c : N) (s : CodeUnits) :
  isWhiteSpace c = false → trimEnd (c :: s) = c :: trimEnd s.
Proof. intros Hc. cbn [trimEnd]. rewrite Hc. by destruct (trimEnd s). Qed.

Lemma trimEnd_last (s : CodeUnits) (c : N) :
  last (trimEnd s) = Some c → isWhiteSpace c = false.
Proof.
  induction s as [|d s IH]; [done |]. cbn [trimEnd].
  destruct (trimEnd s) as [|e kept].
  - destruct (isWhiteSpace d) eqn:Hd; [done |]. by intros [= <-].
  - intros Hlast. by apply IH.
Qed.

Lemma trimEnd_clean (s : CodeUnits) :
  (∀ c, last s = Some c → isWhiteSpace c = false) → trimEnd s = s.
Proof.
  induction s as [|d s IH]; [done |]. intros Hlast. cbn [trimEnd].
  destruct s as [|e s].
  - cbn. by rewrite (Hlast d eq_refl).
  - rewrite IH by (intros c Hc; by apply Hlast). done.
Qed.

Lemma trimStart_head (s : CodeUnits) (c : N) :
  head (trimStart s) = Some c → isWhiteSpace c = false.
Proof.
  induction s as [|d s IH]; [done |]. cbn [trimStart].
  destruct (isWhiteSpace d) eqn:Hd; [done |]. by intros [= <-].
Qed.

Lemma trimStart_clean (s : CodeUnits) :
  (∀ c, head s = Some c → isWhiteSpace c = false) → trimStart s = s.
Proof.
  destruct s as [|d s]; [done |]. intros Hhead. cbn [trimStart].
  by rewrite (Hhead d eq_refl).
Qed.

Lemma trim_head (s : CodeUnits) (c : N) :
  head (trim s) = Some c → isWhiteSpace c = false.
Proof.
  unfold trim. pose proof (trimStart_head s) as Hstart.
  destruct (trimStart s) as [|d rest]; [done |].
  specialize (Hstart d eq_refl). rewrite trimEnd_keeps_head by done.
  by intros [= <-].
Qed.

Lemma trimStart_has_comma (s : CodeUnits) :
  has_comma s = false → has_comma (trimStart s) = false.
Proof.
  unfold has_comma. induction s as [|c s IH]; [done |].
  cbn [trimStart existsb].
  intros [Hc Hs]%orb_false_iff. destruct (isWhiteSpace c); [by apply IH |].
  cbn. by rewrite Hc.
Qed.

Lemma trimEnd_has_comma (s : CodeUnits) :
  has_comma s = false → has_comma (trimEnd s) = false.
Proof.
  unfold has_comma. induction s as [|c s IH]; [done |].
  cbn [trimEnd existsb].
  intros [Hc Hs]%orb_false_iff. specialize (IH Hs).
  destruct (trimEnd s) as [|d kept].
  - destruct (isWhiteSpace c); [done |]. cbn. by rewrite Hc.
  - cbn [existsb] in *. by rewrite Hc.
Qed.

Lemma truthy_true (s : CodeUnits) : truthy s = true ↔ s ≠ [].
Proof. by destruct s. Qed.

Lemma trim_clean (item : CodeUnits) : clean_item item → trim item = item.
Proof.
  intros (_ & _ & Hhead & Hlast). unfold trim.
  rewrite trimStart_clean by done. by apply trimEnd_clean.
Qed.

(** X28: every item the list field produces is clean: it is not empty,
    holds no comma, and neither starts nor ends with a white space
    character ([trim] strips the Unicode white space, the no-break space
    included). *)
Theorem parse_list_items_clean (value item : CodeUnits) :
  item ∈ parse_list value → clean_item item.
Proof.
  unfold parse_list. intros Hin.
  apply list_elem_of_In, filter_In in Hin as [Hin Hne].
  apply in_map_iff in Hin as (piece & <- & Hpiece).
  apply list_elem_of_In in Hpiece.
  pose proof (split_comma_pieces value) as Hfree.
  rewrite Forall_forall in Hfree. specialize (Hfree _ Hpiece).
  split; [by apply truthy_true |]. split; [| split].
  - unfold trim. by apply trimEnd_has_comma, trimStart_has_comma.
  - apply trim_head.
  - apply trimEnd_last.
Qed.

(** X29: the list field round-trips clean lists: parsing the text shown
    for a list of clean items gives back that list. *)
Theorem parse_list_show_list (items : list CodeUnits) :
  Forall clean_item items → parse_list (show_list items) = items.
Proof.
  intros Hclean. unfold parse_list.
  rewrite split_comma_show_list
    by (eapply Forall_impl; [exact Hclean |]; by intros a (_ & ? & _)).
  destruct Hclean as [|a items Ha Hitems]; [done |].
  cbn [map]. rewrite (trim_clean a Ha). cbn [List.filter].
  rewrite (proj2 (truthy_true a)) by apply Ha. f_equal.
  induction Hitems as [|b items Hb _ IH]; [done |].
  cbn [fmap list_fmap map]. unfold trim at 1. cbn [trimStart].
  change (isWhiteSpace 32) with true. cbn match.
  fold (trim b). rewrite (trim_clean b Hb).
  cbn [List.filter]. rewrite (proj2 (truthy_true b)) by apply Hb.
  by f_equal.
Qed.

Lemma parse_list_items_clean_witness :
  parse_list typed_list = [[97%N]; item_b_c]
  ∧ item_b_c ∈ parse_list typed_list
  ∧ clean_item item_b_c.
Proof.
  assert (Hp : parse_list typed_list = [[97%N]; item_b_c]) by reflexivity.
  assert (H : item_b_c ∈ parse_list typed_list).
  { rewrite Hp. apply list_elem_of_further, list_elem_of_here. }
  split; [exact Hp |]. split; [exact H |].
  exact (parse_list_items_clean _ _ H).
Defined.

Lemma parse_list_show_list_witness :
  Forall clean_item draft_and_to_do
  ∧ parse_list (show_list draft_and_to_do) = draft_and_to_do.
Proof.
  assert (Hc : Forall clean_item draft_and_to_do).
  { repeat constructor; try discriminate; by intros c [= <-]. }
  split; [exact Hc |].
  exact (parse_list_show_list _ Hc).
Defined.
